(** * perlcritic language server: output parsing and diagnostic mapping

    A shallow embedding of [server/src/Critique.ts], [server/src/Output.ts]
    and of the diagnostic loop of [validateTextDocument] in
    [server/src/server.ts], together with the part of the ECMAScript
    runtime these files call ([String.prototype.trim], [split], [replace]
    with a regular expression, [parseInt], [isNaN], [isFinite]).

    Conventions of the embedding:
    - a JavaScript string is the list of its UTF-16 code units ([list N]);
    - a value of type [T | undefined] is an [option T];
    - Number values that the code computes are integers; they are embedded
      as [Z].  The only arithmetic of the source is a decrement and
      comparisons with zero, exact on doubles of magnitude below 2^53;
    - an abrupt completion (a thrown [TypeError]) is an explicit result
      [Throw], threaded through a small error monad. *)

From Stdlib Require Import String Ascii.
From Stdlib Require Import List NArith ZArith Bool Lia DecimalString.
Import ListNotations.

Set Implicit Arguments.

(** ** Code units and strings *)

Definition jsstring := list N.

(** A literal of the source text, for characters below U+0100. *)
Definition js (s : string) : jsstring :=
  List.map N_of_ascii (list_ascii_of_string s).

Definition jsstring_eqb (a b : jsstring) : bool :=
  if list_eq_dec N.eq_dec a b then true else false.

(** ** Completion records: normal values and thrown exceptions *)

Inductive exn : Type :=
| TypeError (msg : string).

Inductive completion (A : Type) : Type :=
| Normal (a : A)
| Throw (e : exn).

Arguments Normal {A} a.
Arguments Throw {A} e.

Definition bind {A B : Type} (c : completion A) (f : A -> completion B)
  : completion B :=
  match c with
  | Normal a => f a
  | Throw e => Throw e
  end.

Declare Scope completion_scope.
Delimit Scope completion_scope with completion.
Notation "x <- c ;; k" := (bind c (fun x => k))
  (at level 61, c at next level, right associativity) : completion_scope.

Module JS.

Local Open Scope N_scope.

(** *** White space (WhiteSpace and LineTerminator of ECMA-262) *)

Definition isWhiteSpace (c : N) : bool :=
  ((9 <=? c) && (c <=? 13))            (* TAB LF VT FF CR *)
  || (c =? 32) || (c =? 160)           (* SP, NBSP *)
  || (c =? 5760)                       (* U+1680 *)
  || ((8192 <=? c) && (c <=? 8202))    (* U+2000 .. U+200A *)
  || (c =? 8232) || (c =? 8233)        (* LS, PS *)
  || (c =? 8239) || (c =? 8287)        (* U+202F, U+205F *)
  || (c =? 12288) || (c =? 65279).     (* U+3000, U+FEFF *)

Fixpoint trimStart (s : jsstring) : jsstring :=
  match s with
  | c :: s' => if isWhiteSpace c then trimStart s' else s
  | [] => []
  end.

Fixpoint trimEnd (s : jsstring) : jsstring :=
  match s with
  | c :: s' =>
      match trimEnd s' with
      | [] => if isWhiteSpace c then [] else [c]
      | r => c :: r
      end
  | [] => []
  end.

(** [String.prototype.trim] *)
Definition trim (s : jsstring) : jsstring := trimEnd (trimStart s).

(** *** [String.prototype.split] for a separator pattern that is a literal

    Both patterns of the source, [/\[\[END\]\]/] and [/\[>\]/], are
    sequences of escaped literal characters, so a match at a position is a
    prefix test.  [skip] counts the code units of a separator still to be
    passed over, [cur] is the current segment, reversed. *)

Fixpoint startsWith (sep s : jsstring) : bool :=
  match sep, s with
  | [], _ => true
  | a :: sep', b :: s' => (a =? b) && startsWith sep' s'
  | _ :: _, [] => false
  end.

Fixpoint split_aux (sep : jsstring) (skip : nat) (cur : jsstring)
  (s : jsstring) : list jsstring :=
  match s with
  | [] => [rev cur]
  | c :: s' =>
      match skip with
      | S n => split_aux sep n cur s'
      | O =>
          if startsWith sep s
          then rev cur :: split_aux sep (Nat.pred (length sep)) [] s'
          else split_aux sep 0 (c :: cur) s'
      end
  end.

Definition split (sep s : jsstring) : list jsstring := split_aux sep 0 [] s.

(** *** A backtracking matcher for the regular expressions of the source

    The matcher follows the continuation semantics of ECMA-262
    (22.2.2): a pattern is run on the rest of the input with a continuation
    that receives the rest after the match; quantifiers are greedy and fall
    back to fewer iterations when the continuation fails. *)

Inductive regex : Type :=
| Cls (p : N -> bool)                          (* one code unit of a class *)
| Cat (r1 r2 : regex)                          (* r1 r2 *)
| Rep (r : regex) (lo : nat) (hi : option nat) (* r{lo,hi}, greedy *).

Definition cont := jsstring -> option jsstring.
Definition matcher := jsstring -> cont -> option jsstring.

(** RepeatMatcher.  [budget] bounds the iterations still allowed: the upper
    bound of the quantifier, or, for an unbounded one, [lo] plus the number
    of code units left (an iteration past the minimum that consumes nothing
    is rejected). *)
Fixpoint rep_loop (m : matcher) (budget lo : nat) (s : jsstring) (k : cont)
  : option jsstring :=
  match budget with
  | O => match lo with O => k s | S _ => None end
  | S b =>
      let iter :=
        m s (fun s1 =>
               if Nat.eqb lo 0 && Nat.eqb (length s1) (length s) then None
               else rep_loop m b (Nat.pred lo) s1 k) in
      match lo with
      | S _ => iter
      | O => match iter with Some r => Some r | None => k s end
      end
  end.

Fixpoint rmatch (r : regex) (s : jsstring) (k : cont) : option jsstring :=
  match r with
  | Cls p =>
      match s with
      | c :: s' => if p c then k s' else None
      | [] => None
      end
  | Cat r1 r2 => rmatch r1 s (fun s1 => rmatch r2 s1 k)
  | Rep r' lo hi =>
      let budget :=
        match hi with Some h => h | None => (lo + length s)%nat end in
      rep_loop (rmatch r') budget lo s k
  end.

(** The number of code units of the match of [r] at the start of [s]. *)
Definition match_length (r : regex) (s : jsstring) : option nat :=
  match rmatch r s (fun rest => Some rest) with
  | Some rest => Some (length s - length rest)%nat
  | None => None
  end.

(** [s.replace(r, "")] for a global pattern [r]: every match, found from
    left to right, is removed; after an empty match the scan moves on by
    one code unit. *)
Fixpoint replace_aux (r : regex) (skip : nat) (s : jsstring) : jsstring :=
  match s with
  | [] => []
  | c :: s' =>
      match skip with
      | S n => replace_aux r n s'
      | O =>
          match match_length r s with
          | Some (S n) => replace_aux r n s'
          | Some O | None => c :: replace_aux r 0 s'
          end
      end
  end.

Definition replace_all_empty (r : regex) (s : jsstring) : jsstring :=
  replace_aux r 0 s.

(** *** Digits *)

Definition isDigit (c : N) : bool := (48 <=? c) && (c <=? 57).

(** The value of a digit of radix up to 16, [None] for other code units. *)
Definition digitValue (c : N) : option Z :=
  if (48 <=? c) && (c <=? 57) then Some (Z.of_N (c - 48))
  else if (97 <=? c) && (c <=? 102) then Some (Z.of_N (c - 87))
  else if (65 <=? c) && (c <=? 70) then Some (Z.of_N (c - 55))
  else None.

Definition isRadixDigit (R : Z) (c : N) : bool :=
  match digitValue c with
  | Some v => (v <? R)%Z
  | None => false
  end.

Fixpoint takeWhile (p : N -> bool) (s : jsstring) : jsstring :=
  match s with
  | c :: s' => if p c then c :: takeWhile p s' else []
  | [] => []
  end.

Fixpoint dropWhile (p : N -> bool) (s : jsstring) : jsstring :=
  match s with
  | c :: s' => if p c then dropWhile p s' else s
  | [] => []
  end.

(** The mathematical value of a run of digits in radix [R]. *)
Definition digitsValue (R : Z) (ds : jsstring) : Z :=
  fold_left
    (fun acc c => acc * R + match digitValue c with Some v => v | None => 0 end)%Z
    ds 0%Z.

(** *** [parseInt(string)] with no radix argument

    The argument is converted with ToString ([undefined] becomes the text
    "undefined") and trimmed at the start; the result [None] stands for
    NaN. *)

Definition ToString (v : option jsstring) : jsstring :=
  match v with Some s => s | None => js "undefined" end.

(** Steps 3 to 16 of parseInt, on the trimmed text: the sign, the prefix
    0x or 0X, the longest run of digits. *)
Definition signOf (S0 : jsstring) : Z * jsstring :=
  match S0 with
  | c :: r =>
      if c =? 45 then ((-1)%Z, r)             (* - *)
      else if c =? 43 then (1%Z, r)           (* + *)
      else (1%Z, S0)
  | [] => (1%Z, S0)
  end.

Definition radixOf (S1 : jsstring) : Z * jsstring :=
  match S1 with
  | z :: x :: r =>                            (* 0x or 0X *)
      if (z =? 48) && ((x =? 120) || (x =? 88)) then (16%Z, r)
      else (10%Z, S1)
  | _ => (10%Z, S1)
  end.

Definition parseDigits (S0 : jsstring) : option Z :=
  let '(sign, S1) := signOf S0 in
  let '(R, S2) := radixOf S1 in
  match takeWhile (isRadixDigit R) S2 with
  | [] => None
  | ds => Some (sign * digitsValue R ds)%Z
  end.

Definition parseInt (input : option jsstring) : option Z :=
  parseDigits (trimStart (ToString input)).

Definition isNaN (n : option Z) : bool :=
  match n with Some _ => false | None => true end.

(** *** ToNumber applied to a string, as far as [isFinite] needs it

    StringToNumber trims white space and reads a StrNumericLiteral; the
    embedding keeps the class of the resulting Number.  A literal whose
    mathematical value is at or above 2^1024 - 2^970 rounds to Infinity. *)

Inductive numclass : Type := IsNaN | IsInfinite | IsFinite.

Definition overflowBound : Z := (2 ^ 1024 - 2 ^ 970)%Z.

Definition decimalClass (ip fp : jsstring) (e : Z) : numclass :=
  let m := digitsValue 10 (ip ++ fp) in
  let e' := (e - Z.of_nat (length fp))%Z in
  if (m =? 0)%Z then IsFinite
  else if (0 <=? e')%Z
       then if (m * 10 ^ e' <? overflowBound)%Z then IsFinite else IsInfinite
       else if (m <? overflowBound * 10 ^ (- e'))%Z then IsFinite
            else IsInfinite.

(** ExponentPart, optional: [Some 0] when absent, [None] when ill-formed. *)
Definition exponentPart (r : jsstring) : option Z :=
  match r with
  | [] => Some 0%Z
  | e :: r1 =>
      if (e =? 101) || (e =? 69) then                   (* e E *)
        let '(sg, r2) :=
          match r1 with
          | c :: t =>
              if c =? 45 then ((-1)%Z, t)
              else if c =? 43 then (1%Z, t)
              else (1%Z, r1)
          | [] => (1%Z, r1)
          end in
        match r2 with
        | [] => None
        | _ => if forallb isDigit r2 then Some (sg * digitsValue 10 r2)%Z
               else None
        end
      else None
  end.

(** StrUnsignedDecimalLiteral *)
Definition unsignedDecimal (t : jsstring) : numclass :=
  if jsstring_eqb t (js "Infinity") then IsInfinite
  else
    let ip := takeWhile isDigit t in
    let r1 := dropWhile isDigit t in
    match r1 with
    | c :: r2 =>
        if c =? 46 then                                  (* . *)
          let fp := takeWhile isDigit r2 in
          match ip ++ fp with
          | [] => IsNaN
          | _ => match exponentPart (dropWhile isDigit r2) with
                 | Some e => decimalClass ip fp e
                 | None => IsNaN
                 end
          end
        else
          match ip with
          | [] => IsNaN
          | _ => match exponentPart r1 with
                 | Some e => decimalClass ip [] e
                 | None => IsNaN
                 end
          end
    | [] =>
        match ip with
        | [] => IsNaN
        | _ => decimalClass ip [] 0
        end
    end.

(** NonDecimalIntegerLiteral: 0x, 0o, 0b and their capitals; [None] when
    the text does not start with such a prefix. *)
Definition nonDecimal (t : jsstring) : option numclass :=
  match t with
  | z :: x :: r =>
      let radix :=
        if negb (z =? 48) then None
        else if (x =? 120) || (x =? 88) then Some 16%Z
        else if (x =? 111) || (x =? 79) then Some 8%Z
        else if (x =? 98) || (x =? 66) then Some 2%Z
        else None in
      match radix with
      | Some R =>
          Some match r with
               | [] => IsNaN
               | _ => if forallb (isRadixDigit R) r
                      then if (digitsValue R r <? overflowBound)%Z
                           then IsFinite else IsInfinite
                      else IsNaN
               end
      | None => None
      end
  | _ => None
  end.

Definition StringToNumber (s : jsstring) : numclass :=
  match trim s with
  | [] => IsFinite                                           (* +0 *)
  | c :: r =>
      match nonDecimal (c :: r) with
      | Some cls => cls
      | None =>
          if (c =? 43) || (c =? 45) then unsignedDecimal r
          else unsignedDecimal (c :: r)
      end
  end.

(** The global [isFinite]; ToNumber(undefined) is NaN. *)
Definition isFinite (v : option jsstring) : bool :=
  match v with
  | Some s => match StringToNumber s with IsFinite => true | _ => false end
  | None => false
  end.

(** Truthiness of a [string | undefined] and of a [number | undefined]. *)
Definition truthy_string (v : option jsstring) : bool :=
  match v with
  | Some (_ :: _) => true
  | _ => false
  end.

Definition truthy_number (v : option Z) : bool :=
  match v with
  | Some z => negb (z =? 0)%Z
  | None => false
  end.

(** [!s] for a string [s]. *)
Definition isEmpty (s : jsstring) : bool :=
  match s with [] => true | _ :: _ => false end.

(** [v.trim()] on a value that may be [undefined]. *)
Definition trim_method (v : option jsstring) : completion jsstring :=
  match v with
  | Some s => Normal (trim s)
  | None =>
      Throw (TypeError "Cannot read properties of undefined (reading 'trim')")
  end.

End JS.

Local Open Scope completion_scope.

(** ** [Critique.ts] *)

Module Critique.

Record t : Type := mk {
  line : option Z;
  column : option Z;
  severity : option Z;
  summary : option jsstring;
  explanation : option jsstring;
  error : option jsstring
}.

(** The object before any field is assigned. *)
Definition blank : t := mk None None None None None None.

(** The pattern [/\[>\]/]. *)
Definition FIELD_SEP : jsstring := js "[>]".

Definition error_prefix : jsstring :=
  js "Invalid output format (Please check your perltidy settings): ".

Definition isNumber (n : option jsstring) : bool :=
  negb (JS.isNaN (JS.parseInt n)) && JS.isFinite n.

(** [n > 0 ? n - 1 : 0]; the comparison is false on NaN. *)
Definition zero_based (n : option Z) : Z :=
  match n with
  | Some z => if (z >? 0)%Z then (z - 1)%Z else 0%Z
  | None => 0%Z
  end.

Definition constructor (outputText : jsstring) : completion t :=
  match outputText with
  | [] => Normal blank
  | _ =>
      let fields := JS.split FIELD_SEP outputText in
      let lineStr := nth_error fields 0 in
      let columnStr := nth_error fields 1 in
      let severityStr := nth_error fields 2 in
      let summaryStr := nth_error fields 3 in
      let explanationStr := nth_error fields 4 in
      if negb (isNumber lineStr) || negb (isNumber columnStr)
         || negb (isNumber severityStr)
      then Normal (mk None None None None None
                      (Some (error_prefix ++ outputText)))
      else
        l <- JS.trim_method lineStr ;;
        c <- JS.trim_method columnStr ;;
        s <- JS.trim_method severityStr ;;
        let lineInt := JS.parseInt (Some l) in
        let columnInt := JS.parseInt (Some c) in
        let severityInt := JS.parseInt (Some s) in
        sm <- JS.trim_method summaryStr ;;
        ex <- JS.trim_method explanationStr ;;
        Normal (mk (Some (zero_based lineInt)) (Some (zero_based columnInt))
                   (Some (zero_based severityInt)) (Some sm) (Some ex) None)
  end.

End Critique.

(** ** [Output.ts] *)

Module Output.

Record t : Type := mk {
  error : option jsstring;
  critiques : list Critique.t
}.

(** The pattern [/\[\[END\]\]/]. *)
Definition END_MARK : jsstring := js "[[END]]".

(** The pattern that removes ANSI escape codes, piece by piece:
      [\u001b\u009b]   [[()#;?]*   (?: [0-9]{1,4} (?: ;[0-9]{0,4} )* )?
      [0-9A-ORZcf-nqry=><]
    with the flag g. *)

Definition isEscape (c : N) : bool := (c =? 27)%N || (c =? 155)%N.

Definition isIntro (c : N) : bool :=
  (c =? 91)%N || (c =? 40)%N || (c =? 41)%N
  || (c =? 35)%N || (c =? 59)%N || (c =? 63)%N.          (* [ ( ) # ; ? *)

Definition isSemi (c : N) : bool := (c =? 59)%N.

Definition isFinal (c : N) : bool :=
  ((48 <=? c) && (c <=? 57))%N                            (* 0-9 *)
  || ((65 <=? c) && (c <=? 79))%N                         (* A-O *)
  || (c =? 82)%N || (c =? 90)%N || (c =? 99)%N            (* R Z c *)
  || ((102 <=? c) && (c <=? 110))%N                       (* f-n *)
  || (c =? 113)%N || (c =? 114)%N || (c =? 121)%N         (* q r y *)
  || (c =? 61)%N || (c =? 62)%N || (c =? 60)%N.           (* = > < *)

Definition ANSI : JS.regex :=
  JS.Cat (JS.Cls isEscape)
 (JS.Cat (JS.Rep (JS.Cls isIntro) 0 None)
 (JS.Cat (JS.Rep
            (JS.Cat (JS.Rep (JS.Cls JS.isDigit) 1 (Some 4))
                    (JS.Rep (JS.Cat (JS.Cls isSemi)
                                    (JS.Rep (JS.Cls JS.isDigit) 0 (Some 4)))
                            0 None))
            0 (Some 1))
         (JS.Cls isFinal))).

(** The text handed to [new Critique]: trimmed, then stripped. *)
Definition clean (critiqueText : jsstring) : jsstring :=
  JS.replace_all_empty ANSI (JS.trim critiqueText).

(** The callback of [forEach]; its [return] ends the callback only. *)
Definition callback (this : t) (critiqueText : jsstring) : completion t :=
  let critiqueText := clean critiqueText in
  critique <- Critique.constructor critiqueText ;;
  if JS.truthy_string (Critique.error critique)
  then Normal (mk (Critique.error critique) (critiques this))
  else if JS.truthy_number (Critique.severity critique)
       then pushed <- Critique.constructor critiqueText ;;
            Normal (mk (error this) (critiques this ++ [pushed]))
       else Normal this.

(** [Array.prototype.forEach]: the callback runs on every element in
    order; an exception leaves the loop. *)
Fixpoint forEach (this : t) (records : list jsstring) : completion t :=
  match records with
  | [] => Normal this
  | r :: rest => this' <- callback this r ;; forEach this' rest
  end.

Definition constructor (outputStr : jsstring) (errorStr : option jsstring)
  : completion t :=
  if JS.truthy_string errorStr then Normal (mk errorStr [])
  else
    match outputStr with
    | [] => Normal (mk None [])
    | _ => forEach (mk None []) (JS.split END_MARK outputStr)
    end.

End Output.

(** ** The diagnostic loop of [validateTextDocument] in [server.ts] *)

Module Server.

Inductive DiagnosticSeverity : Type := Error | Warning | Information | Hint.

Record Position : Type := mkPosition {
  pos_line : option Z;
  character : option Z
}.

Record Range : Type := mkRange {
  start : Position;
  end_ : Position
}.

Record Location : Type := mkLocation {
  uri : jsstring;
  loc_range : Range
}.

Record DiagnosticRelatedInformation : Type := mkRelated {
  location : Location;
  rel_message : option jsstring
}.

Record Diagnostic : Type := mkDiagnostic {
  severity : DiagnosticSeverity;
  range : Range;
  message : option jsstring;
  source : jsstring;
  relatedInformation : option (list DiagnosticRelatedInformation)
}.

(** [Number.MAX_VALUE], the largest finite double, is the integer
    (2^53 - 1) * 2^971. *)
Definition Number_MAX_VALUE : Z := ((2 ^ 53 - 1) * 2 ^ 971)%Z.

(** The body of [output.critiques.forEach]: one diagnostic per critique.
    [hasDiagnosticRelatedInformationCapability] is the module variable set
    once by [onInitialize]. *)
Definition diagnostic_of (hasDiagnosticRelatedInformationCapability : bool)
  (documentUri : jsstring) (critique : Critique.t) : Diagnostic :=
  let diagnostic_range :=
    mkRange (mkPosition (Critique.line critique) (Critique.column critique))
            (mkPosition (Critique.line critique) (Some Number_MAX_VALUE)) in
  mkDiagnostic Warning diagnostic_range (Critique.summary critique)
    (js "perlcritic")
    (if hasDiagnosticRelatedInformationCapability
     then Some [mkRelated (mkLocation documentUri diagnostic_range)
                          (Critique.explanation critique)]
     else None).

(** The loop pushes onto [diagnostics], which starts empty. *)
Fixpoint push_all (cap : bool) (documentUri : jsstring)
  (diagnostics : list Diagnostic) (critiques : list Critique.t)
  : list Diagnostic :=
  match critiques with
  | [] => diagnostics
  | critique :: rest =>
      push_all cap documentUri
        (diagnostics ++ [diagnostic_of cap documentUri critique]) rest
  end.

Definition toDiagnostics (cap : bool) (documentUri : jsstring)
  (critiques : list Critique.t) : list Diagnostic :=
  push_all cap documentUri [] critiques.

(** What [validateTextDocument] does with the awaited [Output]. *)
Inductive effect : Type :=
| showErrorMessage (msg : jsstring)
| sendDiagnostics (documentUri : jsstring) (diagnostics : list Diagnostic).

Definition validateTextDocument (cap : bool) (documentUri : jsstring)
  (output : Output.t) : effect :=
  match Output.error output with
  | Some (c :: msg) => showErrorMessage (c :: msg)
  | _ => sendDiagnostics documentUri
           (toDiagnostics cap documentUri (Output.critiques output))
  end.

End Server.

(** ** Vocabulary of the statements

    Predicates on one record of the analyzer's output (a segment between
    end-of-record markers), read off the tests of the two constructors. *)

(** The three leading fields of a cleaned text pass [isNumber]. *)
Definition numeric_fields (text : jsstring) : bool :=
  let fields := JS.split Critique.FIELD_SEP text in
  Critique.isNumber (nth_error fields 0)
  && Critique.isNumber (nth_error fields 1)
  && Critique.isNumber (nth_error fields 2).

(** A record is blank when nothing is left of it after cleaning. *)
Definition blank_record (r : jsstring) : bool :=
  match Output.clean r with [] => true | _ => false end.

(** A non-blank record fails numeric-field validation. *)
Definition fails_validation (r : jsstring) : bool :=
  negb (blank_record r) && negb (numeric_fields (Output.clean r)).

(** A record passes validation but has fewer than five fields. *)
Definition short_record (r : jsstring) : bool :=
  negb (blank_record r) && numeric_fields (Output.clean r)
  && (length (JS.split Critique.FIELD_SEP (Output.clean r)) <? 5)%nat.

(** The message that a record contributes, if any. *)
Definition message_of (r : jsstring) : option jsstring :=
  if fails_validation r
  then Some (Critique.error_prefix ++ Output.clean r)
  else None.

(** The findings that a record contributes to [critiques]. *)
Definition findings_of (r : jsstring) : list Critique.t :=
  match Critique.constructor (Output.clean r) with
  | Normal c =>
      if JS.truthy_string (Critique.error c) then []
      else if JS.truthy_number (Critique.severity c) then [c] else []
  | Throw _ => []
  end.

(** The message left in [error] after the records [rs], starting from
    [e0]: every malformed record overwrites it. *)
Definition last_message (e0 : option jsstring) (rs : list jsstring)
  : option jsstring :=
  fold_left
    (fun acc r => match message_of r with Some e => Some e | None => acc end)
    rs e0.

(** [s.includes(sub)] *)
Fixpoint includes (s sub : jsstring) : bool :=
  JS.startsWith sub s
  || match s with
     | [] => false
     | _ :: s' => includes s' sub
     end.

(** Escape sequences that the pattern [Output.ANSI] recognises in full
    whatever follows them: an introducer ESC or U+009B, a run of
    [ [ ( ) # ; ? ], optionally one to four digits followed by groups of a
    semicolon and up to four digits, and a final code unit of the last
    class that is not a digit.  Every SGR colour sequence with parameters
    of at most four digits has this shape. *)

Definition isFinalLetter (c : N) : bool :=
  Output.isFinal c && negb (JS.isDigit c).

Definition short_digits (lo : nat) (ds : jsstring) : bool :=
  forallb JS.isDigit ds && (lo <=? length ds)%nat && (length ds <=? 4)%nat.

(** The text of [;d1;d2...] for the digit runs [d1, d2, ...]. *)
Fixpoint semi_groups (groups : list jsstring) : jsstring :=
  match groups with
  | [] => []
  | g :: rest => 59%N :: g ++ semi_groups rest
  end.

Inductive parameters : jsstring -> Prop :=
| no_parameters : parameters []
| some_parameters (d : jsstring) (groups : list jsstring) :
    short_digits 1 d = true ->
    forallb (short_digits 0) groups = true ->
    parameters (d ++ semi_groups groups).

Inductive escape_sequence : jsstring -> Prop :=
| escape_sequence_intro (e : N) (intro params : jsstring) (f : N) :
    Output.isEscape e = true ->
    forallb Output.isIntro intro = true ->
    parameters params ->
    isFinalLetter f = true ->
    escape_sequence (e :: intro ++ params ++ [f]).

(** [inserted w w']: [w'] is [w] with escape sequences inserted. *)
Inductive inserted : jsstring -> jsstring -> Prop :=
| inserted_nil : inserted [] []
| inserted_keep (c : N) (w w' : jsstring) :
    inserted w w' -> inserted (c :: w) (c :: w')
| inserted_seq (s w w' : jsstring) :
    escape_sequence s -> inserted w w' -> inserted w (s ++ w').

(** No code unit of [w] starts an escape sequence. *)
Definition escape_free (w : jsstring) : bool :=
  forallb (fun c => negb (Output.isEscape c)) w.

(** Example streams. *)

Definition two_findings_around_a_malformed_record : jsstring :=
  js "2[>]5[>]3[>]a[>]b[[END]]x[>]1[>]1[>]msg[>]exp[[END]]4[>]4[>]4[>]c[>]d[[END]]".

(** A malformed record in red: ESC[31m ... ESC[0m. *)
Definition coloured_malformed_record : jsstring :=
  [27%N] ++ js "[31mx[>]1[>]1[>]msg[>]exp" ++ [27%N] ++ js "[0m".

Definition two_malformed_records : jsstring :=
  js "x[>]1[>]1[>]first[>]exp[[END]]2[>]5[>]3[>]a[>]b[[END]]1[>]y[>]1[>]second[>]exp[[END]]".

(** [stops p rest]: a run of the class [p] cannot go on into [rest]. *)
Definition stops (p : N -> bool) (rest : jsstring) : Prop :=
  match rest with [] => True | c :: _ => p c = false end.

(** Two pieces of [Output.ANSI]: [[0-9]{0,4}] and [;[0-9]{0,4}]. *)
Definition DIGITS_0_4 : JS.regex := JS.Rep (JS.Cls JS.isDigit) 0 (Some 4).
Definition GROUP : JS.regex := JS.Cat (JS.Cls Output.isSemi) DIGITS_0_4.

(** What white space before and after a text does to its fields: it goes
    to the front of the first field and to the back of the last one. *)
Definition prepend (p : jsstring) (fields : list jsstring) : list jsstring :=
  match fields with
  | [] => []
  | h :: t => (p ++ h) :: t
  end.

Fixpoint append_last (b : jsstring) (fields : list jsstring) : list jsstring :=
  match fields with
  | [] => []
  | h :: t =>
      match t with
      | [] => [h ++ b]
      | _ :: _ => h :: append_last b t
      end
  end.

(** A separator without white space. *)
Definition no_ws (sep : jsstring) : bool :=
  forallb (fun c => negb (JS.isWhiteSpace c)) sep.

(** A record that gives a critique: not blank, three numeric fields, five
    fields or more. *)
Definition well_formed (r : jsstring) : bool :=
  negb (blank_record r) && numeric_fields (Output.clean r)
  && (5 <=? length (JS.split Critique.FIELD_SEP (Output.clean r)))%nat.

(** A well-formed record; the same record after a CSI sequence with a
    parameter of five digits, after the CSI sequence that saves the cursor
    position (ESC [ s), and with colour codes. *)
Definition plain_record : jsstring :=
  js "2[>]5[>]3[>]Bad thing[>]Policy::Name".

Definition long_parameter_record : jsstring :=
  [27%N] ++ js "[12345m" ++ plain_record.

Definition saved_cursor_record : jsstring :=
  [27%N] ++ js "[s" ++ plain_record.

Definition coloured_record : jsstring :=
  [27%N] ++ js "[1;31m" ++ js "2[>]5" ++ [27%N] ++ js "[0m"
  ++ js "[>]3[>]Bad thing[>]Policy::Name" ++ [27%N] ++ js "[K".

(** ** Settings, the executable and the validation cycle of [server.ts]

    The functions below are those of the last version of the server in
    [server.ts]: [mergeSettings], [validateExecutable], [validate] and the
    whole of [validateTextDocument]. *)

Module JSArray.

(** [parts.join(sep)] *)
Fixpoint join (sep : jsstring) (parts : list jsstring) : jsstring :=
  match parts with
  | [] => []
  | p :: rest =>
      match rest with
      | [] => p
      | _ :: _ => p ++ sep ++ join sep rest
      end
  end.

(** [a.indexOf(x)], with strict equality; -1 when [x] is absent. *)
Fixpoint indexOf_from (i : Z) (a : list jsstring) (x : jsstring) : Z :=
  match a with
  | [] => (-1)%Z
  | y :: a' => if jsstring_eqb y x then i else indexOf_from (i + 1)%Z a' x
  end.

Definition indexOf (a : list jsstring) (x : jsstring) : Z :=
  indexOf_from 0%Z a x.

(** ToString of a Number that is an integer of magnitude below 10^21:
    its decimal digits, after a minus sign when it is negative. *)
Definition Number_toString (n : Z) : jsstring :=
  js (NilZero.string_of_int (Z.to_int n)).

End JSArray.

Module Settings.

Record PerlcriticSettings : Type := mk {
  maxNumberOfProblems : Z;
  executable : jsstring;
  severity : jsstring;
  onSave : bool;
  additionalArguments : list jsstring
}.

Definition defaultSettings : PerlcriticSettings :=
  mk 10 (js "perlcritic") (js "gentle") false
     [js "--quiet";
      JSArray.join (js "=")
        [js "--verbose"; js "%l[>]%c[>]%s[>]%m. %e (%p)[>]%d[[END]]"]].

(** The alternatives of the pattern
    [/count|list|profile-proto|statistics-only|-C|pager|doc|verbose|quiet/]. *)
Definition FORMAT_WORDS : list jsstring :=
  [js "count"; js "list"; js "profile-proto"; js "statistics-only"; js "-C";
   js "pager"; js "doc"; js "verbose"; js "quiet"].

(** [a.match(pattern)] is not null: an alternative occurs in [a]. *)
Definition changes_format (a : jsstring) : bool :=
  existsb (includes a) FORMAT_WORDS.

(** [mergeSettings]; [newSettings] is [None] when it is undefined or
    null. *)
Definition mergeSettings (newSettings : option PerlcriticSettings)
  : PerlcriticSettings :=
  match newSettings with
  | None => defaultSettings
  | Some newSettings =>
      let pushed1 :=
        if (JSArray.indexOf (additionalArguments newSettings) (js "--profile")
            =? -1)%Z
           && (JSArray.indexOf (additionalArguments newSettings) (js "-p")
               =? -1)%Z
        then additionalArguments newSettings ++ [js "--" ++ severity newSettings]
        else additionalArguments newSettings in
      let pushed2 :=
        pushed1
        ++ [js "--top="
            ++ JSArray.Number_toString (maxNumberOfProblems newSettings)] in
      mk (maxNumberOfProblems newSettings) (executable newSettings)
         (severity newSettings) (onSave newSettings)
         (additionalArguments defaultSettings
          ++ filter (fun a => negb (changes_format a)) pushed2)
  end.

(** The names of the setting [perlcritic.severity]. *)
Definition severity_names : list jsstring :=
  [js "brutal"; js "cruel"; js "harsh"; js "stern"; js "gentle"].

End Settings.

Module Executable.

(** [validateExecutable] with its cache [__validateExecutableCache].  The
    file system is a parameter: [accessSync] tells whether the call
    returns ([true]) or throws, [which_sync] gives the path found or the
    text of the exception. *)
Definition validateExecutable (accessSync : jsstring -> bool)
  (which_sync : jsstring -> jsstring + jsstring)
  (cache : list jsstring) (executable : jsstring)
  : list jsstring * list jsstring * option jsstring :=
  let '(cache', shown) :=
    if Nat.eqb (length cache) 0
       || negb (match nth_error cache 0 with
                | Some c0 => jsstring_eqb c0 executable
                | None => false
                end)
    then
      let result :=
        if includes executable (js "/") && accessSync executable
        then executable else [] in
      match which_sync executable with
      | inl found => ([executable; found], [])
      | inr error => ([executable; result], [error])
      end
    else (cache, []) in
  (cache', shown, nth_error cache' 1).

(** The caches that the server can hold. *)
Definition cache_shape (cache : list jsstring) : Prop :=
  cache = [] \/ exists e r, cache = [e; r].

End Executable.

Module Pipeline.

(** What running the analyzer yields: the two streams, collected up to the
    end of the output, or the value caught when [spawn] throws, which the
    source takes as a string. *)
Inductive spawned : Type :=
| Streams (outputStr errorStr : jsstring)
| Caught (error : jsstring).

(** [validate]; [run] stands for choosing the executable
    ([validateExecutable], with the message that it may show), spawning it
    with the arguments of the settings and feeding it the text.  [Throw]
    is an exception raised in the listener of the end of the output: the
    promise is then never resolved. *)
Definition validate (run : jsstring -> spawned) (text : jsstring)
  : completion Output.t :=
  if JS.isEmpty text then Output.constructor [] (Some [])
  else
    match run text with
    | Streams outputStr errorStr => Output.constructor outputStr (Some errorStr)
    | Caught error => Output.constructor [] (Some error)
    end.

(** [validateTextDocument], from the text of the document to what is sent
    to the client. *)
Definition validateTextDocument (cap : bool) (run : jsstring -> spawned)
  (documentUri text : jsstring) : completion Server.effect :=
  output <- validate run text ;;
  Normal (Server.validateTextDocument cap documentUri output).

End Pipeline.

(** ** More vocabulary *)

(** No part of [r], followed by anything, starts with [sep]: no suffix of
    [r] starts with [sep] or starts [sep]. *)
Fixpoint free_of (sep r : jsstring) : bool :=
  match r with
  | [] => true
  | _ :: r' =>
      negb (JS.startsWith sep r) && negb (JS.startsWith r sep)
      && free_of sep r'
  end.

(** The output of the analyzer for the records [rs]: each record is
    followed by the end-of-record marker. *)
Definition stream (rs : list jsstring) : jsstring :=
  concat (map (fun r => r ++ Output.END_MARK) rs).

(** A complete critique: its five fields are set and [error] is not; the
    coordinates are not negative and the texts are trimmed. *)
Definition complete (f : Critique.t) : Prop :=
  exists l c s m e,
    f = Critique.mk (Some l) (Some c) (Some s) (Some m) (Some e) None
    /\ (0 <= l)%Z /\ (0 <= c)%Z /\ (0 <= s)%Z
    /\ JS.trim m = m /\ JS.trim e = e.

(** A diagnostic as the protocol wants it: a warning on one line, from a
    position that is not negative to the end of the line. *)
Definition well_placed (cap : bool) (d : Server.Diagnostic) : Prop :=
  Server.severity d = Server.Warning
  /\ Server.source d = js "perlcritic"
  /\ (exists l c m,
        (0 <= l)%Z /\ (0 <= c)%Z
        /\ Server.range d =
           Server.mkRange (Server.mkPosition (Some l) (Some c))
             (Server.mkPosition (Some l) (Some Server.Number_MAX_VALUE))
        /\ Server.message d = Some m)
  /\ (Server.relatedInformation d = None <-> cap = false).

(** An analyzer that prints a finding for whatever it reads. *)
Definition one_finding (text : jsstring) : Pipeline.spawned :=
  Pipeline.Streams (js "2[>]5[>]3[>]Bad thing[>]Policy::Name[[END]]") [].

(** The characters of an argument [--top=N]. *)
Definition top_char (c : N) : bool :=
  JS.isDigit c
  || (c =? 45)%N || (c =? 116)%N || (c =? 111)%N || (c =? 112)%N
  || (c =? 61)%N.

(** [Number.isSafeInteger]: the integers of magnitude up to 2^53 - 1.  On
    them the integers of the embedding are the doubles of the code, and so
    are their decrement and their decimal text. *)
Definition isSafeInteger (z : Z) : bool :=
  (Z.abs z <=? 9007199254740991)%Z.

(** A field of one to fifteen decimal digits; its value is a safe
    integer. *)
Definition decimal_field (ds : jsstring) : bool :=
  negb (JS.isEmpty ds) && forallb JS.isDigit ds && (length ds <=? 15)%nat.

(** ** The runtime functions *)

(** Decides a statement on character classes by cases on its comparisons. *)
Ltac class_cases :=
  repeat match goal with
    | |- context [N.eqb ?a ?b] => destruct (N.eqb_spec a b); try lia
    | |- context [N.leb ?a ?b] => destruct (N.leb_spec a b); try lia
    end;
  simpl; try discriminate; try reflexivity; try lia; auto.

Section TrimFacts.

Lemma trimStart_idem (s : jsstring) : JS.trimStart (JS.trimStart s) = JS.trimStart s.
Proof.
  induction s as [|c s IH]; simpl; auto.
  destruct (JS.isWhiteSpace c) eqn:E; auto.
  simpl. now rewrite E.
Qed.

Lemma trimEnd_cons (c : N) (s : jsstring) :
  JS.isWhiteSpace c = false -> JS.trimEnd (c :: s) = c :: JS.trimEnd s.
Proof.
  intros E. simpl. rewrite E. now destruct (JS.trimEnd s).
Qed.

Lemma ws_range (c : N) :
  JS.isWhiteSpace c = true -> (9 <= c <= 13 \/ c = 32 \/ 160 <= c)%N.
Proof.
  unfold JS.isWhiteSpace. intros H.
  repeat (apply orb_prop in H as [H|H]);
    repeat match type of H with
           | (_ && _ = true) => apply andb_prop in H as [? ?]
           end;
    repeat match goal with
           | H : (_ <=? _)%N = true |- _ => apply N.leb_le in H
           | H : (_ =? _)%N = true |- _ => apply N.eqb_eq in H
           end; lia.
Qed.

Lemma not_ws (c : N) :
  (14 <= c < 32 \/ 33 <= c < 160)%N -> JS.isWhiteSpace c = false.
Proof.
  intros H. destruct (JS.isWhiteSpace c) eqn:E; [|reflexivity].
  apply ws_range in E. lia.
Qed.

Lemma digit_not_ws (R : Z) (c : N) :
  JS.isRadixDigit R c = true -> JS.isWhiteSpace c = false.
Proof.
  unfold JS.isRadixDigit, JS.digitValue. intros H. apply not_ws.
  repeat match type of H with
         | context [if ?b then _ else _] => destruct b eqn:?
         end; try discriminate;
    repeat match goal with
           | H : (_ && _ = true) |- _ => apply andb_prop in H as [? ?]
           | H : (_ <=? _)%N = true |- _ => apply N.leb_le in H
           end; lia.
Qed.

Lemma ws_not_digit (R : Z) (c : N) :
  JS.isWhiteSpace c = true -> JS.isRadixDigit R c = false.
Proof.
  intros H. destruct (JS.isRadixDigit R c) eqn:E; [|reflexivity].
  apply digit_not_ws in E. congruence.
Qed.

Lemma ws_neq (c k : N) :
  JS.isWhiteSpace c = true -> (14 <= k < 32 \/ 33 <= k < 160)%N ->
  (c =? k)%N = false.
Proof.
  intros H Hk. apply N.eqb_neq. apply ws_range in H. lia.
Qed.

Lemma trimStart_head (s : jsstring) :
  JS.trimStart s = []
  \/ exists c r, JS.trimStart s = c :: r /\ JS.isWhiteSpace c = false.
Proof.
  induction s as [|c s IH]; simpl; [now left|].
  destruct (JS.isWhiteSpace c) eqn:E; [assumption|].
  right. now exists c, s.
Qed.

Lemma trimEnd_decomp (t : jsstring) :
  exists w, t = JS.trimEnd t ++ w /\ forallb JS.isWhiteSpace w = true.
Proof.
  induction t as [|c t (w & Ht & Hw)]; [now exists []|].
  simpl. destruct (JS.trimEnd t) as [|a r] eqn:E.
  - destruct (JS.isWhiteSpace c) eqn:Ec.
    + exists (c :: w). simpl in *. rewrite Ec, Hw. now rewrite Ht at 1.
    + exists w. simpl in *. now rewrite Ht at 1.
  - exists w. split; [|assumption]. simpl. now rewrite Ht at 1.
Qed.

Lemma takeWhile_app_stop (p : N -> bool) (u w : jsstring) :
  match w with [] => True | c :: _ => p c = false end ->
  JS.takeWhile p (u ++ w) = JS.takeWhile p u.
Proof.
  intros Hw. induction u as [|a u IH]; simpl.
  - destruct w as [|c w]; [reflexivity|]. simpl. now rewrite Hw.
  - destruct (p a); [now rewrite IH|reflexivity].
Qed.

Lemma signOf_app_ws (u w : jsstring) :
  forallb JS.isWhiteSpace w = true ->
  JS.signOf (u ++ w) = (fst (JS.signOf u), snd (JS.signOf u) ++ w).
Proof.
  intros Hw. destruct u as [|c u]; simpl.
  - destruct w as [|a w]; [reflexivity|]. simpl in *.
    apply andb_prop in Hw as [Ha _].
    now rewrite !(ws_neq _ Ha) by lia.
  - destruct (c =? 45)%N; [reflexivity|]. now destruct (c =? 43)%N.
Qed.

Lemma radixOf_app_ws (u w : jsstring) :
  forallb JS.isWhiteSpace w = true ->
  JS.radixOf (u ++ w) = (fst (JS.radixOf u), snd (JS.radixOf u) ++ w).
Proof.
  intros Hw. destruct u as [|z [|x u]]; simpl.
  - destruct w as [|a [|b w]]; try reflexivity. simpl in *.
    apply andb_prop in Hw as [Ha _].
    now rewrite (ws_neq _ Ha) by lia.
  - destruct w as [|a w]; [reflexivity|]. simpl in *.
    apply andb_prop in Hw as [Ha _].
    rewrite !(ws_neq _ Ha) by lia. now rewrite andb_false_r.
  - now destruct ((z =? 48)%N && ((x =? 120)%N || (x =? 88)%N)).
Qed.

Lemma parseDigits_app_ws (u w : jsstring) :
  forallb JS.isWhiteSpace w = true ->
  JS.parseDigits (u ++ w) = JS.parseDigits u.
Proof.
  intros Hw. unfold JS.parseDigits.
  rewrite signOf_app_ws by assumption.
  destruct (JS.signOf u) as [sign S1]. cbn [fst snd].
  rewrite radixOf_app_ws by assumption.
  destruct (JS.radixOf S1) as [R S2]. cbn [fst snd].
  rewrite takeWhile_app_stop; [reflexivity|].
  destruct w as [|a w]; [exact I|]. simpl in Hw.
  apply andb_prop in Hw as [Ha _]. now apply ws_not_digit.
Qed.

Lemma trimStart_trimEnd (s : jsstring) :
  JS.trimStart (JS.trim s) = JS.trim s.
Proof.
  unfold JS.trim.
  destruct (trimStart_head s) as [->|(c & r & -> & Hc)]; [reflexivity|].
  rewrite trimEnd_cons by assumption. simpl. now rewrite Hc.
Qed.

(** [parseInt] does not see the white space that [trim] removes. *)
Lemma parseInt_trim (s : jsstring) :
  JS.parseInt (Some (JS.trim s)) = JS.parseInt (Some s).
Proof.
  unfold JS.parseInt, JS.ToString. rewrite trimStart_trimEnd.
  unfold JS.trim.
  destruct (trimEnd_decomp (JS.trimStart s)) as (w & Hdec & Hw).
  rewrite Hdec at 2. now rewrite parseDigits_app_ws.
Qed.

End TrimFacts.

Section MoreTrimFacts.

Lemma trimStart_all_ws (a : jsstring) :
  forallb JS.isWhiteSpace a = true -> JS.trimStart a = [].
Proof.
  induction a as [|c a IH]; simpl; [reflexivity|].
  intros H. apply andb_prop in H as [-> H]. auto.
Qed.

Lemma trimStart_ws_app (a x : jsstring) :
  forallb JS.isWhiteSpace a = true -> JS.trimStart (a ++ x) = JS.trimStart x.
Proof.
  induction a as [|c a IH]; simpl; [reflexivity|].
  intros H. apply andb_prop in H as [-> H]. auto.
Qed.

Lemma trimStart_app_ws (x b : jsstring) :
  forallb JS.isWhiteSpace b = true ->
  JS.trimStart (x ++ b) =
  match JS.trimStart x with [] => [] | y => y ++ b end.
Proof.
  intros Hb. induction x as [|c x IH]; simpl.
  - now apply trimStart_all_ws.
  - destruct (JS.isWhiteSpace c); [assumption|reflexivity].
Qed.

Lemma trimEnd_all_ws (b : jsstring) :
  forallb JS.isWhiteSpace b = true -> JS.trimEnd b = [].
Proof.
  induction b as [|c b IH]; simpl; [reflexivity|].
  intros H. apply andb_prop in H as [Hc H]. now rewrite IH, Hc.
Qed.

Lemma trimEnd_app_ws (x b : jsstring) :
  forallb JS.isWhiteSpace b = true -> JS.trimEnd (x ++ b) = JS.trimEnd x.
Proof.
  intros Hb. induction x as [|c x IH]; simpl.
  - now apply trimEnd_all_ws.
  - now rewrite IH.
Qed.

Lemma trim_ws_app (a x : jsstring) :
  forallb JS.isWhiteSpace a = true -> JS.trim (a ++ x) = JS.trim x.
Proof. intros H. unfold JS.trim. now rewrite trimStart_ws_app. Qed.

Lemma trim_app_ws (x b : jsstring) :
  forallb JS.isWhiteSpace b = true -> JS.trim (x ++ b) = JS.trim x.
Proof.
  intros H. unfold JS.trim. rewrite trimStart_app_ws by assumption.
  destruct (JS.trimStart x) as [|c y]; [reflexivity|].
  now apply trimEnd_app_ws.
Qed.

Lemma trimStart_decomp (u : jsstring) :
  exists a, u = a ++ JS.trimStart u /\ forallb JS.isWhiteSpace a = true.
Proof.
  induction u as [|c u (a & Hu & Ha)]; [now exists []|].
  simpl. destruct (JS.isWhiteSpace c) eqn:Hc.
  - exists (c :: a). simpl. rewrite Hc, Ha. now rewrite Hu at 1.
  - now exists [].
Qed.

Lemma trim_decomp (u : jsstring) :
  exists a b, u = a ++ JS.trim u ++ b
              /\ forallb JS.isWhiteSpace a = true
              /\ forallb JS.isWhiteSpace b = true.
Proof.
  destruct (trimStart_decomp u) as (a & Hu & Ha).
  destruct (trimEnd_decomp (JS.trimStart u)) as (b & Ht & Hb).
  exists a, b. unfold JS.trim. rewrite <- Ht. auto.
Qed.

Lemma trim_idem (u : jsstring) : JS.trim (JS.trim u) = JS.trim u.
Proof.
  destruct (trim_decomp u) as (a & b & Hu & Ha & Hb).
  rewrite Hu at 2. now rewrite trim_ws_app, trim_app_ws.
Qed.

Lemma isNumber_ws_app (a l : jsstring) :
  forallb JS.isWhiteSpace a = true ->
  Critique.isNumber (Some (a ++ l)) = Critique.isNumber (Some l).
Proof.
  intros Ha. unfold Critique.isNumber, JS.parseInt, JS.isFinite,
    JS.StringToNumber, JS.ToString.
  now rewrite trimStart_ws_app, trim_ws_app.
Qed.

End MoreTrimFacts.

(** ** Character classes of the pattern *)

Section ClassFacts.

Variable c : N.

Lemma finalLetter_final : isFinalLetter c = true -> Output.isFinal c = true.
Proof. unfold isFinalLetter. intros H. now apply andb_prop in H. Qed.

Lemma finalLetter_not_digit : isFinalLetter c = true -> JS.isDigit c = false.
Proof.
  unfold isFinalLetter, Output.isFinal, JS.isDigit. class_cases.
Qed.

Lemma finalLetter_not_intro :
  isFinalLetter c = true -> Output.isIntro c = false.
Proof.
  unfold isFinalLetter, Output.isFinal, Output.isIntro, JS.isDigit.
  class_cases.
Qed.

Lemma finalLetter_not_semi : isFinalLetter c = true -> Output.isSemi c = false.
Proof.
  unfold isFinalLetter, Output.isFinal, Output.isSemi, JS.isDigit.
  class_cases.
Qed.

Lemma finalLetter_not_ws :
  isFinalLetter c = true -> JS.isWhiteSpace c = false.
Proof.
  unfold isFinalLetter, Output.isFinal, JS.isWhiteSpace, JS.isDigit.
  class_cases.
Qed.

Lemma digit_not_intro : JS.isDigit c = true -> Output.isIntro c = false.
Proof. unfold Output.isIntro, JS.isDigit. class_cases. Qed.

Lemma digit_not_semi : JS.isDigit c = true -> Output.isSemi c = false.
Proof. unfold Output.isSemi, JS.isDigit. class_cases. Qed.

Lemma escape_not_ws : Output.isEscape c = true -> JS.isWhiteSpace c = false.
Proof. unfold Output.isEscape, JS.isWhiteSpace. class_cases. Qed.

End ClassFacts.

(** ** The matcher on escape sequences *)

Section RegexFacts.

Lemma cls_stops (p : N -> bool) (rest : jsstring) (k : JS.cont) :
  stops p rest -> JS.rmatch (JS.Cls p) rest k = None.
Proof.
  destruct rest as [|c rest]; simpl; [reflexivity|]. now intros ->.
Qed.

(** A greedy quantifier over a class takes a whole run when the
    continuation accepts what follows the run. *)
Lemma rep_cls_greedy (p : N -> bool) (rest : jsstring) (k : JS.cont)
  (res : jsstring) (xs : jsstring) :
  forall budget lo : nat,
    forallb p xs = true ->
    stops p rest ->
    k rest = Some res ->
    (length xs <= budget)%nat ->
    (lo <= length xs)%nat ->
    JS.rep_loop (JS.rmatch (JS.Cls p)) budget lo (xs ++ rest) k = Some res.
Proof.
  induction xs as [|x xs IH]; intros budget lo Hxs Hstop Hk Hb Hlo.
  - simpl in Hlo. assert (lo = 0%nat) as -> by lia.
    destruct budget as [|b]; simpl; [assumption|].
    destruct rest as [|c rest]; [assumption|].
    simpl in Hstop. now rewrite Hstop.
  - simpl in Hxs, Hb, Hlo. apply andb_prop in Hxs as [Hx Hxs].
    destruct budget as [|b]; [lia|].
    cbn [JS.rep_loop app JS.rmatch]. rewrite Hx.
    replace (Nat.eqb (length (xs ++ rest)) (length (x :: xs ++ rest))) with false
      by (symmetry; apply Nat.eqb_neq; simpl; lia).
    rewrite andb_false_r.
    rewrite IH by (auto; lia).
    now destruct lo.
Qed.

End RegexFacts.

Section AnsiFacts.

Lemma rmatch_Cat (r1 r2 : JS.regex) (s : jsstring) (k : JS.cont) :
  JS.rmatch (JS.Cat r1 r2) s k = JS.rmatch r1 s (fun s1 => JS.rmatch r2 s1 k).
Proof. reflexivity. Qed.

Lemma rmatch_Rep (r : JS.regex) (lo : nat) (hi : option nat) (s : jsstring)
  (k : JS.cont) :
  JS.rmatch (JS.Rep r lo hi) s k =
  JS.rep_loop (JS.rmatch r)
    match hi with Some h => h | None => (lo + length s)%nat end lo s k.
Proof. reflexivity. Qed.

Lemma rmatch_Cls (p : N -> bool) (c : N) (s : jsstring) (k : JS.cont) :
  JS.rmatch (JS.Cls p) (c :: s) k = if p c then k s else None.
Proof. reflexivity. Qed.

Lemma rep_loop_S (m : JS.matcher) (b lo : nat) (s : jsstring) (k : JS.cont) :
  JS.rep_loop m (S b) lo s k =
  let iter :=
    m s (fun s1 =>
           if Nat.eqb lo 0 && Nat.eqb (length s1) (length s) then None
           else JS.rep_loop m b (Nat.pred lo) s1 k) in
  match lo with
  | S _ => iter
  | O => match iter with Some r => Some r | None => k s end
  end.
Proof. reflexivity. Qed.

Lemma short_digits_inv (lo : nat) (ds : jsstring) :
  short_digits lo ds = true ->
  forallb JS.isDigit ds = true /\ (lo <= length ds <= 4)%nat.
Proof.
  unfold short_digits. intros H.
  apply andb_prop in H as [H H4]. apply andb_prop in H as [Hd Hlo].
  apply Nat.leb_le in H4, Hlo. auto.
Qed.

Lemma semi_groups_stops (groups : list jsstring) (rest : jsstring) :
  stops JS.isDigit rest -> stops JS.isDigit (semi_groups groups ++ rest).
Proof.
  destruct groups as [|g gs]; simpl; [auto|]. intros _. reflexivity.
Qed.

(** The starred group takes every [;digits] group in turn. *)
Lemma rep_groups_greedy (rest : jsstring) (k : JS.cont) (res : jsstring)
  (groups : list jsstring) :
  forall budget : nat,
    forallb (short_digits 0) groups = true ->
    stops JS.isDigit rest ->
    stops Output.isSemi rest ->
    k rest = Some res ->
    (length groups <= budget)%nat ->
    JS.rep_loop (JS.rmatch GROUP) budget 0 (semi_groups groups ++ rest) k
    = Some res.
Proof.
  induction groups as [|g gs IH]; intros budget Hg Hd Hs Hk Hb.
  - destruct budget as [|b]; simpl; [assumption|].
    destruct rest as [|c rest]; [assumption|].
    simpl in Hs. now rewrite Hs.
  - simpl in Hg, Hb. apply andb_prop in Hg as [Hg Hgs].
    apply short_digits_inv in Hg as [Hgd Hglen].
    destruct budget as [|b]; [lia|].
    cbn [semi_groups app]. rewrite rep_loop_S. cbv zeta.
    unfold GROUP at 1. rewrite rmatch_Cat, rmatch_Cls.
    change (Output.isSemi 59) with true. cbv iota.
    unfold DIGITS_0_4. rewrite rmatch_Rep.
    rewrite <- app_assoc.
    rewrite rep_cls_greedy with (res := res); auto; try lia.
    + now apply semi_groups_stops.
    + replace (Nat.eqb (length _) _) with false.
      * cbn [andb Nat.pred Nat.eqb]. apply IH; auto; lia.
      * symmetry. apply Nat.eqb_neq. simpl. rewrite !length_app. lia.
Qed.

Lemma parameters_then_final (params : jsstring) (f : N) (rest : jsstring) :
  parameters params ->
  isFinalLetter f = true ->
  JS.rmatch
    (JS.Cat (JS.Rep
               (JS.Cat (JS.Rep (JS.Cls JS.isDigit) 1 (Some 4))
                       (JS.Rep GROUP 0 None))
               0 (Some 1))
            (JS.Cls Output.isFinal))
    (params ++ f :: rest) (fun r => Some r)
  = Some rest.
Proof.
  intros Hp Hf.
  pose proof (finalLetter_final _ Hf) as Hfin.
  pose proof (finalLetter_not_digit _ Hf) as Hnd.
  pose proof (finalLetter_not_semi _ Hf) as Hns.
  destruct Hp as [|d groups Hd Hgs].
  - cbn [app]. rewrite rmatch_Cat, rmatch_Rep, rep_loop_S. cbv zeta.
    rewrite rmatch_Cat, rmatch_Rep, rep_loop_S. cbv zeta.
    rewrite !rmatch_Cls, Hnd, Hfin. reflexivity.
  - apply short_digits_inv in Hd as [Hdd Hdlen].
    rewrite rmatch_Cat, rmatch_Rep, rep_loop_S. cbv zeta.
    rewrite rmatch_Cat, rmatch_Rep. rewrite <- app_assoc.
    rewrite rep_cls_greedy with (res := rest); auto; try lia.
    + now apply semi_groups_stops.
    + rewrite rmatch_Rep. apply rep_groups_greedy; auto.
      * replace (Nat.eqb (length _) _) with false.
        -- cbn [andb JS.rep_loop]. now rewrite rmatch_Cls, Hfin.
        -- symmetry. apply Nat.eqb_neq. rewrite !length_app. simpl. lia.
      * clear. induction groups as [|g gs IH]; simpl; [lia|].
        rewrite !length_app in *. simpl in *. lia.
Qed.

Lemma parameters_stops_intro (params : jsstring) (f : N) (rest : jsstring) :
  parameters params ->
  isFinalLetter f = true ->
  stops Output.isIntro (params ++ f :: rest).
Proof.
  intros Hp Hf. destruct Hp as [|d groups Hd Hgs].
  - simpl. now apply finalLetter_not_intro.
  - apply short_digits_inv in Hd as [Hdd Hdlen].
    destruct d as [|c d]; [simpl in Hdlen; lia|].
    simpl in *. apply andb_prop in Hdd as [Hc _]. now apply digit_not_intro.
Qed.

(** The pattern matches an escape sequence in full, whatever follows. *)
Lemma ANSI_matches_escape_sequence (s rest : jsstring) :
  escape_sequence s ->
  JS.rmatch Output.ANSI (s ++ rest) (fun r => Some r) = Some rest.
Proof.
  intros [e intro params f He Hi Hp Hf].
  unfold Output.ANSI.
  cbn [app]. rewrite rmatch_Cat, rmatch_Cls, He.
  rewrite rmatch_Cat, rmatch_Rep.
  rewrite <- !app_assoc. cbn [app].
  apply rep_cls_greedy; auto.
  - now apply parameters_stops_intro.
  - now apply parameters_then_final.
  - rewrite length_app. lia.
  - lia.
Qed.

Lemma ANSI_needs_escape (c : N) (s : jsstring) (k : JS.cont) :
  Output.isEscape c = false -> JS.rmatch Output.ANSI (c :: s) k = None.
Proof. intros H. unfold Output.ANSI. now rewrite rmatch_Cat, rmatch_Cls, H. Qed.

End AnsiFacts.

(** ** Removing escape sequences, trimming records *)

Section StripFacts.

Lemma replace_aux_skip (r : JS.regex) (s : jsstring) :
  forall n : nat, (n <= length s)%nat ->
    JS.replace_aux r n s = JS.replace_aux r 0 (skipn n s).
Proof.
  induction s as [|c s IH]; intros n Hn.
  - now destruct n.
  - destruct n as [|n]; [reflexivity|].
    simpl in Hn. cbn [JS.replace_aux skipn]. apply IH. lia.
Qed.

Lemma escape_sequence_length (s : jsstring) :
  escape_sequence s -> exists e body, s = e :: body /\ Output.isEscape e = true.
Proof. intros [e intro params f He _ _ _]. eauto. Qed.

Lemma strip_escape_sequence (s rest : jsstring) :
  escape_sequence s ->
  JS.replace_aux Output.ANSI 0 (s ++ rest) = JS.replace_aux Output.ANSI 0 rest.
Proof.
  intros Hs.
  pose proof (ANSI_matches_escape_sequence rest Hs) as Hm.
  destruct (escape_sequence_length Hs) as (e & body & -> & He).
  cbn [app JS.replace_aux]. unfold JS.match_length.
  cbn [app] in Hm. rewrite Hm.
  replace (length (e :: body ++ rest) - length rest)%nat with (S (length body))
    by (cbn [length]; rewrite length_app; lia).
  rewrite replace_aux_skip by (rewrite length_app; lia).
  now rewrite skipn_app, skipn_all, Nat.sub_diag.
Qed.

Lemma strip_keeps (c : N) (s : jsstring) :
  Output.isEscape c = false ->
  JS.replace_aux Output.ANSI 0 (c :: s) = c :: JS.replace_aux Output.ANSI 0 s.
Proof.
  intros Hc. cbn [JS.replace_aux]. unfold JS.match_length.
  now rewrite ANSI_needs_escape.
Qed.

(** Removing the matches of the pattern undoes the insertion. *)
Lemma strip_inserted (w w' : jsstring) :
  escape_free w = true -> inserted w w' ->
  JS.replace_all_empty Output.ANSI w' = w.
Proof.
  unfold JS.replace_all_empty. intros Hfree Hins.
  induction Hins as [|c w w' Hins IH|s w w' Hs Hins IH].
  - reflexivity.
  - simpl in Hfree. apply andb_prop in Hfree as [Hc Hfree].
    rewrite strip_keeps by now destruct (Output.isEscape c).
    now rewrite IH.
  - rewrite strip_escape_sequence by assumption. auto.
Qed.

Lemma inserted_refl (w : jsstring) : inserted w w.
Proof. induction w; constructor; assumption. Qed.

Lemma strip_escape_free (w : jsstring) :
  escape_free w = true -> JS.replace_all_empty Output.ANSI w = w.
Proof. intros H. apply strip_inserted; [assumption|apply inserted_refl]. Qed.

End StripFacts.

Section TrimInserted.

Lemma escape_sequence_ends (s : jsstring) :
  escape_sequence s ->
  exists e body f, s = e :: body /\ s = removelast s ++ [f]
    /\ JS.isWhiteSpace e = false /\ JS.isWhiteSpace f = false.
Proof.
  intros [e intro params f He _ _ Hf].
  exists e, (intro ++ params ++ [f]), f. split; [reflexivity|].
  split.
  - change (e :: intro ++ params ++ [f]) with ((e :: intro) ++ params ++ [f]).
    rewrite !app_assoc. now rewrite removelast_last.
  - split; [now apply escape_not_ws|now apply finalLetter_not_ws].
Qed.

Lemma trimEnd_app_last (s x : jsstring) (f : N) :
  JS.isWhiteSpace f = false ->
  JS.trimEnd ((s ++ [f]) ++ x) = (s ++ [f]) ++ JS.trimEnd x.
Proof.
  intros Hf. induction s as [|c s IH].
  - simpl app. now apply trimEnd_cons.
  - cbn [app JS.trimEnd]. rewrite IH.
    destruct s; reflexivity.
Qed.

Lemma inserted_nil_inv (u : jsstring) : inserted u [] -> u = [].
Proof.
  intros H. remember [] as x eqn:Hx.
  induction H as [|c w w' H IH|s w w' Hs H IH]; [reflexivity|discriminate|].
  destruct (escape_sequence_length Hs) as (e & body & -> & _). discriminate.
Qed.

Lemma inserted_trimStart (w w' : jsstring) :
  inserted w w' ->
  exists a u, w = a ++ u /\ forallb JS.isWhiteSpace a = true
              /\ inserted u (JS.trimStart w').
Proof.
  induction 1 as [|c w w' H (a & u & Hw & Ha & Hu)|s w w' Hs H _].
  - exists [], []. repeat split. constructor.
  - cbn [JS.trimStart]. destruct (JS.isWhiteSpace c) eqn:Hc.
    + exists (c :: a), u. subst w. simpl. rewrite Hc. auto.
    + exists [], (c :: w). repeat split. now constructor.
  - exists [], w. repeat split.
    destruct (escape_sequence_ends Hs) as (e & body & f & He & _ & Hws & _).
    rewrite He. cbn [app JS.trimStart]. rewrite Hws.
    change (e :: body ++ w') with ((e :: body) ++ w'). rewrite <- He.
    now constructor.
Qed.

Lemma inserted_trimEnd (w w' : jsstring) :
  inserted w w' ->
  exists u b, w = u ++ b /\ forallb JS.isWhiteSpace b = true
              /\ inserted u (JS.trimEnd w').
Proof.
  induction 1 as [|c w w' H (u & b & Hw & Hb & Hu)|s w w' Hs H (u & b & Hw & Hb & Hu)].
  - exists [], []. repeat split. constructor.
  - cbn [JS.trimEnd]. destruct (JS.trimEnd w') as [|x r] eqn:E.
    + apply inserted_nil_inv in Hu. subst u. simpl in Hw. subst w.
      destruct (JS.isWhiteSpace c) eqn:Hc.
      * exists [], (c :: b). simpl. rewrite Hc. repeat split; auto. constructor.
      * exists [c], b. repeat split; auto. repeat constructor.
    + exists (c :: u), b. subst w. repeat split; auto. now constructor.
  - exists u, b. repeat split; auto.
    destruct (escape_sequence_ends Hs) as (e & body & f & _ & Hl & _ & Hf).
    rewrite Hl. rewrite trimEnd_app_last by assumption. rewrite <- Hl.
    now constructor.
Qed.

Lemma inserted_trim (w w' : jsstring) :
  inserted w w' ->
  exists a u b, w = a ++ u ++ b
                /\ forallb JS.isWhiteSpace a = true
                /\ forallb JS.isWhiteSpace b = true
                /\ inserted u (JS.trim w').
Proof.
  intros H.
  destruct (inserted_trimStart H) as (a & u1 & Hw & Ha & H1).
  destruct (inserted_trimEnd H1) as (u & b & Hu1 & Hb & H2).
  exists a, u, b. subst. auto.
Qed.

End TrimInserted.

(** ** [split] and white space *)

Section SplitFacts.

Variable sep : jsstring.
Hypothesis sep_nonempty : sep <> [].
Hypothesis sep_no_ws : no_ws sep = true.

Lemma split_aux_nonempty (x : jsstring) :
  forall skip cur, JS.split_aux sep skip cur x <> [].
Proof.
  induction x as [|c x IH]; intros skip cur; simpl; [discriminate|].
  destruct skip; [|apply IH].
  destruct (JS.startsWith sep (c :: x)); [discriminate|apply IH].
Qed.

Lemma prepend_prepend (p q : jsstring) (fields : list jsstring) :
  prepend p (prepend q fields) = prepend (p ++ q) fields.
Proof. destruct fields; simpl; [reflexivity|]. now rewrite app_assoc. Qed.

Lemma split_aux_cur (x : jsstring) :
  forall skip cur,
    JS.split_aux sep skip cur x = prepend (rev cur) (JS.split_aux sep skip [] x).
Proof.
  induction x as [|c x IH]; intros skip cur; simpl.
  - now rewrite app_nil_r.
  - destruct skip; [|apply IH].
    destruct (JS.startsWith sep (c :: x)).
    + simpl. now rewrite app_nil_r.
    + rewrite (IH 0%nat (c :: cur)), (IH 0%nat [c]).
      rewrite prepend_prepend. reflexivity.
Qed.

Lemma startsWith_ws (c : N) (x : jsstring) :
  JS.isWhiteSpace c = true -> JS.startsWith sep (c :: x) = false.
Proof.
  intros Hc. destruct sep as [|s0 sep']; [contradiction|].
  simpl in *. apply andb_prop in sep_no_ws as [Hs0 _].
  destruct (N.eqb_spec s0 c) as [->|]; [|reflexivity].
  rewrite Hc in Hs0. discriminate.
Qed.

Lemma split_aux_all_ws (b : jsstring) :
  forall cur, forallb JS.isWhiteSpace b = true ->
    JS.split_aux sep 0 cur b = [rev cur ++ b].
Proof.
  induction b as [|c b IH]; intros cur Hb; simpl.
  - now rewrite app_nil_r.
  - simpl in Hb. apply andb_prop in Hb as [Hc Hb].
    pose proof (@startsWith_ws c b Hc) as Hs. simpl in Hs. rewrite Hs.
    rewrite IH by assumption. simpl. now rewrite <- app_assoc.
Qed.

Lemma split_ws_prefix (a x : jsstring) :
  forallb JS.isWhiteSpace a = true ->
  JS.split sep (a ++ x) = prepend a (JS.split sep x).
Proof.
  intros Ha. unfold JS.split.
  assert (H : forall cur,
             JS.split_aux sep 0 cur (a ++ x) =
             JS.split_aux sep 0 (rev a ++ cur) x).
  { induction a as [|c a IH]; intros cur; [reflexivity|].
    simpl in Ha. apply andb_prop in Ha as [Hc Ha].
    cbn [app JS.split_aux].
    pose proof (@startsWith_ws c (a ++ x) Hc) as Hs. rewrite Hs.
    rewrite IH by assumption. simpl. now rewrite <- app_assoc. }
  rewrite H, split_aux_cur, app_nil_r. now rewrite rev_involutive.
Qed.

Lemma startsWith_app_ws (b : jsstring) :
  forallb JS.isWhiteSpace b = true ->
  forall y, JS.startsWith sep (y ++ b) = JS.startsWith sep y.
Proof.
  intros Hb. clear sep_nonempty. revert sep_no_ws.
  induction sep as [|s0 sep' IH]; intros Hno y; [now destruct (y ++ b), y|].
  simpl in Hno. apply andb_prop in Hno as [Hs0 Hno].
  destruct y as [|c y]; simpl.
  - destruct b as [|c b]; [reflexivity|]. simpl in Hb.
    apply andb_prop in Hb as [Hc _].
    destruct (N.eqb_spec s0 c) as [->|]; [|reflexivity].
    rewrite Hc in Hs0. discriminate.
  - now rewrite IH.
Qed.

Lemma startsWith_length (y : jsstring) :
  JS.startsWith sep y = true -> (length sep <= length y)%nat.
Proof.
  clear. revert y. induction sep as [|s0 sep' IH]; intros y H; simpl; [lia|].
  destruct y as [|c y]; [discriminate|]. simpl in *.
  apply andb_prop in H as [_ H]. apply IH in H. lia.
Qed.

Lemma append_last_cons (b h : jsstring) (fields : list jsstring) :
  fields <> [] -> append_last b (h :: fields) = h :: append_last b fields.
Proof. destruct fields; [contradiction|reflexivity]. Qed.

Lemma split_aux_ws_suffix (b : jsstring) (x : jsstring) :
  forallb JS.isWhiteSpace b = true ->
  forall skip cur, (skip <= length x)%nat ->
    JS.split_aux sep skip cur (x ++ b) =
    append_last b (JS.split_aux sep skip cur x).
Proof.
  intros Hb. induction x as [|c x IH]; intros skip cur Hskip.
  - simpl in Hskip. assert (skip = 0%nat) as -> by lia.
    simpl. now apply split_aux_all_ws.
  - cbn [app JS.split_aux]. destruct skip as [|n].
    + change (c :: x ++ b) with ((c :: x) ++ b).
      rewrite startsWith_app_ws by assumption.
      destruct (JS.startsWith sep (c :: x)) eqn:Hs.
      * apply startsWith_length in Hs. simpl in Hs.
        rewrite IH by lia.
        rewrite append_last_cons; [reflexivity|apply split_aux_nonempty].
      * apply IH. lia.
    + apply IH. simpl in Hskip. lia.
Qed.

Lemma split_ws_suffix (x b : jsstring) :
  forallb JS.isWhiteSpace b = true ->
  JS.split sep (x ++ b) = append_last b (JS.split sep x).
Proof. intros Hb. apply split_aux_ws_suffix; [assumption|lia]. Qed.

End SplitFacts.

(** ** [Critique.constructor], case by case *)

Section CritiqueFacts.

Lemma isNumber_undefined : Critique.isNumber None = false.
Proof. reflexivity. Qed.

Lemma constructor_blank : Critique.constructor [] = Normal Critique.blank.
Proof. reflexivity. Qed.

Lemma constructor_invalid (text : jsstring) :
  text <> [] ->
  numeric_fields text = false ->
  Critique.constructor text =
  Normal (Critique.mk None None None None None
            (Some (Critique.error_prefix ++ text))).
Proof.
  intros Hne Hnum.
  destruct text as [|c0 text']; [contradiction|].
  unfold Critique.constructor, numeric_fields in *.
  set (fields := JS.split Critique.FIELD_SEP (c0 :: text')) in *.
  clearbody fields.
  destruct (Critique.isNumber (nth_error fields 0));
    destruct (Critique.isNumber (nth_error fields 1));
    destruct (Critique.isNumber (nth_error fields 2));
    simpl in *; try discriminate; reflexivity.
Qed.

Lemma constructor_five (text l c s m e : jsstring) (rest : list jsstring) :
  text <> [] ->
  JS.split Critique.FIELD_SEP text = l :: c :: s :: m :: e :: rest ->
  Critique.isNumber (Some l) = true ->
  Critique.isNumber (Some c) = true ->
  Critique.isNumber (Some s) = true ->
  Critique.constructor text =
  Normal (Critique.mk
            (Some (Critique.zero_based (JS.parseInt (Some (JS.trim l)))))
            (Some (Critique.zero_based (JS.parseInt (Some (JS.trim c)))))
            (Some (Critique.zero_based (JS.parseInt (Some (JS.trim s)))))
            (Some (JS.trim m)) (Some (JS.trim e)) None).
Proof.
  intros Hne Hsplit Hl Hc Hs.
  destruct text as [|c0 text']; [contradiction|].
  unfold Critique.constructor.
  rewrite Hsplit. cbn [nth_error].
  rewrite Hl, Hc, Hs. reflexivity.
Qed.

Lemma numeric_fields_inv (text : jsstring) :
  numeric_fields text = true ->
  exists l c s tl,
    JS.split Critique.FIELD_SEP text = l :: c :: s :: tl
    /\ Critique.isNumber (Some l) = true
    /\ Critique.isNumber (Some c) = true
    /\ Critique.isNumber (Some s) = true.
Proof.
  unfold numeric_fields.
  destruct (JS.split Critique.FIELD_SEP text) as [|l [|c [|s tl]]];
    cbn [nth_error]; rewrite ?isNumber_undefined, ?andb_false_r;
    try discriminate.
  intros H. apply andb_prop in H as [H Hs]. apply andb_prop in H as [Hl Hc].
  now exists l, c, s, tl.
Qed.

Lemma constructor_short (text : jsstring) :
  text <> [] ->
  numeric_fields text = true ->
  (length (JS.split Critique.FIELD_SEP text) < 5)%nat ->
  Critique.constructor text =
  Throw (TypeError "Cannot read properties of undefined (reading 'trim')").
Proof.
  intros Hne Hnum Hlen.
  destruct (numeric_fields_inv _ Hnum) as (l & c & s & tl & Hsplit & Hl & Hc & Hs).
  destruct text as [|c0 text']; [contradiction|].
  unfold Critique.constructor.
  rewrite Hsplit in *. cbn [nth_error].
  rewrite Hl, Hc, Hs.
  destruct tl as [|m [|e tl]]; simpl in Hlen; try lia; reflexivity.
Qed.

Lemma constructor_long (text : jsstring) :
  text <> [] ->
  numeric_fields text = true ->
  (5 <= length (JS.split Critique.FIELD_SEP text))%nat ->
  exists l c s m e rest,
    JS.split Critique.FIELD_SEP text = l :: c :: s :: m :: e :: rest
    /\ Critique.constructor text =
       Normal (Critique.mk
                 (Some (Critique.zero_based (JS.parseInt (Some (JS.trim l)))))
                 (Some (Critique.zero_based (JS.parseInt (Some (JS.trim c)))))
                 (Some (Critique.zero_based (JS.parseInt (Some (JS.trim s)))))
                 (Some (JS.trim m)) (Some (JS.trim e)) None).
Proof.
  intros Hne Hnum Hlen.
  destruct (numeric_fields_inv _ Hnum) as (l & c & s & tl & Hsplit & Hl & Hc & Hs).
  rewrite Hsplit in Hlen.
  destruct tl as [|m [|e rest]]; simpl in Hlen; try lia.
  exists l, c, s, m, e, rest. split; [assumption|].
  now apply constructor_five with (rest := rest).
Qed.

End CritiqueFacts.

Section InvarianceFacts.

Lemma FIELD_SEP_nonempty : Critique.FIELD_SEP <> [].
Proof. discriminate. Qed.

Lemma FIELD_SEP_no_ws : no_ws Critique.FIELD_SEP = true.
Proof. reflexivity. Qed.

Lemma append_last_head (b e : jsstring) (rest : list jsstring) :
  forallb JS.isWhiteSpace b = true ->
  exists e' rest',
    append_last b (e :: rest) = e' :: rest' /\ JS.trim e' = JS.trim e.
Proof.
  intros Hb. destruct rest as [|x rest].
  - exists (e ++ b), []. split; [reflexivity|now apply trim_app_ws].
  - exists e, (append_last b (x :: rest)). split; reflexivity.
Qed.

(** White space around a well-formed text changes nothing for [Critique]. *)
Lemma constructor_ws_invariant (a t b : jsstring) :
  forallb JS.isWhiteSpace a = true ->
  forallb JS.isWhiteSpace b = true ->
  numeric_fields t = true ->
  (5 <= length (JS.split Critique.FIELD_SEP t))%nat ->
  Critique.constructor (a ++ t ++ b) = Critique.constructor t
  /\ numeric_fields (a ++ t ++ b) = true
  /\ (5 <= length (JS.split Critique.FIELD_SEP (a ++ t ++ b)))%nat.
Proof.
  intros Ha Hb Hnum Hlen.
  destruct (numeric_fields_inv _ Hnum) as (l & c & s & tl & Hsplit & Hl & Hc & Hs).
  rewrite Hsplit in Hlen.
  destruct tl as [|m [|e rest]]; simpl in Hlen; try lia.
  assert (Ht : t <> []) by (intros ->; discriminate Hsplit).
  destruct (@append_last_head b e rest Hb) as (e' & rest' & Hlast & Htrim).
  assert (Hsplit' : JS.split Critique.FIELD_SEP (a ++ t ++ b) =
                    (a ++ l) :: c :: s :: m :: e' :: rest').
  { rewrite (@split_ws_prefix _ FIELD_SEP_nonempty FIELD_SEP_no_ws) by assumption.
    rewrite (@split_ws_suffix _ FIELD_SEP_nonempty FIELD_SEP_no_ws) by assumption.
    rewrite Hsplit.
    rewrite !append_last_cons by discriminate. now rewrite Hlast. }
  assert (Hl' : Critique.isNumber (Some (a ++ l)) = true)
    by now rewrite isNumber_ws_app.
  split; [|split].
  - rewrite (@constructor_five _ _ _ _ _ _ _ Ht Hsplit Hl Hc Hs).
    rewrite (@constructor_five (a ++ t ++ b) _ _ _ _ _ _
               ltac:(destruct a, t; try discriminate; congruence)
               Hsplit' Hl' Hc Hs).
    now rewrite trim_ws_app, Htrim.
  - unfold numeric_fields. rewrite Hsplit'. cbn [nth_error].
    rewrite !andb_true_iff. auto.
  - rewrite Hsplit'. simpl. lia.
Qed.

Lemma well_formed_inv (r : jsstring) :
  well_formed r = true ->
  Output.clean r <> [] /\ numeric_fields (Output.clean r) = true
  /\ (5 <= length (JS.split Critique.FIELD_SEP (Output.clean r)))%nat.
Proof.
  unfold well_formed, blank_record. intros H.
  apply andb_prop in H as [H Hlen]. apply andb_prop in H as [Hb Hnum].
  apply Nat.leb_le in Hlen. repeat split; auto.
  destruct (Output.clean r); [discriminate|congruence].
Qed.

Lemma well_formed_intro (r : jsstring) :
  Output.clean r <> [] -> numeric_fields (Output.clean r) = true ->
  (5 <= length (JS.split Critique.FIELD_SEP (Output.clean r)))%nat ->
  well_formed r = true.
Proof.
  unfold well_formed, blank_record. intros Hne -> Hlen.
  apply Nat.leb_le in Hlen. rewrite Hlen.
  destruct (Output.clean r); [contradiction|reflexivity].
Qed.

Lemma escape_free_app (x y : jsstring) :
  escape_free (x ++ y) = escape_free x && escape_free y.
Proof. apply forallb_app. Qed.

End InvarianceFacts.

(** ** [Output.constructor]: the loop over the records *)

Section OutputFacts.

Lemma error_prefix_nonempty (text : jsstring) :
  JS.truthy_string (Some (Critique.error_prefix ++ text)) = true.
Proof. reflexivity. Qed.

Lemma callback_short (this : Output.t) (r : jsstring) :
  short_record r = true ->
  Output.callback this r =
  Throw (TypeError "Cannot read properties of undefined (reading 'trim')").
Proof.
  unfold short_record, blank_record, Output.callback.
  intros H. apply andb_prop in H as [H Hlen]. apply andb_prop in H as [Hb Hnum].
  rewrite constructor_short; auto.
  - destruct (Output.clean r); [discriminate|congruence].
  - now apply Nat.ltb_lt.
Qed.

Lemma callback_returns (this : Output.t) (r : jsstring) :
  short_record r = false ->
  Output.callback this r =
  Normal (Output.mk
            (match message_of r with
             | Some e => Some e
             | None => Output.error this
             end)
            (Output.critiques this ++ findings_of r)).
Proof.
  unfold short_record, message_of, fails_validation, findings_of,
    blank_record, Output.callback.
  destruct (Output.clean r) as [|c0 text'] eqn:Hclean.
  - intros _. simpl. rewrite app_nil_r. now destruct this.
  - cbn [negb andb].
    destruct (numeric_fields (c0 :: text')) eqn:Hnum; cbn [negb andb].
    + intros Hlen. apply Nat.ltb_ge in Hlen.
      destruct (constructor_long (text := c0 :: text')) as
        (l & c & s & m & e & rest & _ & Hctor); auto; [congruence|].
      rewrite Hctor. cbn [bind Critique.error Critique.severity JS.truthy_string].
      destruct (JS.truthy_number _); cbn [bind].
      * reflexivity.
      * rewrite app_nil_r. now destruct this.
    + intros _. rewrite constructor_invalid; auto; [|congruence].
      cbn [bind Critique.error]. rewrite error_prefix_nonempty.
      now rewrite app_nil_r.
Qed.

Lemma forEach_returns (rs : list jsstring) : forall this : Output.t,
  Forall (fun r => short_record r = false) rs ->
  Output.forEach this rs =
  Normal (Output.mk (last_message (Output.error this) rs)
            (Output.critiques this ++ flat_map findings_of rs)).
Proof.
  induction rs as [|r rs IH]; intros this Hall.
  - simpl. rewrite app_nil_r. now destruct this.
  - inversion Hall as [|? ? Hr Hrs]; subst.
    cbn [Output.forEach]. rewrite callback_returns by assumption.
    cbn [bind]. rewrite IH by assumption.
    cbn [Output.error Output.critiques flat_map last_message fold_left].
    unfold last_message. now rewrite <- app_assoc.
Qed.

Lemma forEach_throws (rs : list jsstring) : forall this : Output.t,
  Exists (fun r => short_record r = true) rs ->
  Output.forEach this rs =
  Throw (TypeError "Cannot read properties of undefined (reading 'trim')").
Proof.
  induction rs as [|r rs IH]; intros this Hex.
  - inversion Hex.
  - cbn [Output.forEach].
    destruct (short_record r) eqn:Hr.
    + now rewrite callback_short.
    + rewrite callback_returns by assumption. cbn [bind].
      apply IH. inversion Hex; subst; [congruence|assumption].
Qed.

Lemma split_empty (sep : jsstring) : JS.split sep [] = [[]].
Proof. reflexivity. Qed.

Lemma blank_contributes_nothing (r : jsstring) :
  blank_record r = true -> message_of r = None /\ findings_of r = [].
Proof.
  unfold message_of, fails_validation, findings_of, blank_record.
  destruct (Output.clean r); [|discriminate]. intros _. now split.
Qed.

(** [new Output(outputStr, errorStr)] when [errorStr] is absent or empty
    and no record is short. *)
Lemma constructor_returns (outputStr : jsstring) (errorStr : option jsstring) :
  JS.truthy_string errorStr = false ->
  Forall (fun r => short_record r = false) (JS.split Output.END_MARK outputStr) ->
  Output.constructor outputStr errorStr =
  Normal (Output.mk (last_message None (JS.split Output.END_MARK outputStr))
            (flat_map findings_of (JS.split Output.END_MARK outputStr))).
Proof.
  intros Herr Hall. unfold Output.constructor. rewrite Herr.
  destruct outputStr as [|c0 out'].
  - reflexivity.
  - now rewrite forEach_returns.
Qed.

End OutputFacts.

Section MessageFacts.

Lemma last_message_app (e0 : option jsstring) (l1 l2 : list jsstring) :
  last_message e0 (l1 ++ l2) = last_message (last_message e0 l1) l2.
Proof. unfold last_message. apply fold_left_app. Qed.

Lemma message_of_fails (r : jsstring) :
  fails_validation r = true ->
  message_of r = Some (Critique.error_prefix ++ Output.clean r).
Proof. unfold message_of. now intros ->. Qed.

Lemma message_of_passes (r : jsstring) :
  fails_validation r = false -> message_of r = None.
Proof. unfold message_of. now intros ->. Qed.

Lemma last_message_passes (rs : list jsstring) : forall e0,
  existsb fails_validation rs = false -> last_message e0 rs = e0.
Proof.
  induction rs as [|r rs IH]; intros e0 H; [reflexivity|].
  simpl in H. apply orb_false_elim in H as [Hr Hrs].
  unfold last_message in *. simpl. rewrite (message_of_passes _ Hr).
  now apply IH.
Qed.

Lemma last_message_last (e0 : option jsstring) (pre post : list jsstring)
  (r : jsstring) :
  fails_validation r = true ->
  existsb fails_validation post = false ->
  last_message e0 (pre ++ r :: post) =
  Some (Critique.error_prefix ++ Output.clean r).
Proof.
  intros Hr Hpost.
  rewrite last_message_app.
  change (r :: post) with ([r] ++ post). rewrite last_message_app.
  rewrite last_message_passes by assumption.
  unfold last_message. simpl. now rewrite (message_of_fails _ Hr).
Qed.

(** The last record of a stream that fails validation. *)
Lemma last_failing (rs : list jsstring) :
  existsb fails_validation rs = true ->
  exists pre r post,
    rs = pre ++ r :: post
    /\ fails_validation r = true
    /\ existsb fails_validation post = false.
Proof.
  induction rs as [|a rs IH]; [discriminate|].
  intros H. destruct (existsb fails_validation rs) eqn:Hrs.
  - destruct IH as (pre & r & post & -> & Hr & Hpost); [reflexivity|].
    now exists (a :: pre), r, post.
  - simpl in H. rewrite Hrs, orb_false_r in H.
    now exists [], a, rs.
Qed.

Lemma existsb_false_Forall (p : jsstring -> bool) (rs : list jsstring) :
  existsb p rs = false -> Forall (fun r => p r = false) rs.
Proof.
  induction rs as [|r rs IH]; intros H; constructor;
    simpl in H; apply orb_false_elim in H; tauto.
Qed.

Lemma blank_stream (rs : list jsstring) :
  Forall (fun r => blank_record r = true) rs ->
  last_message None rs = None /\ flat_map findings_of rs = []
  /\ Forall (fun r => short_record r = false) rs.
Proof.
  induction 1 as [|r rs Hr Hrs (IH1 & IH2 & IH3)]; [now repeat split|].
  destruct (blank_contributes_nothing _ Hr) as [Hm Hf].
  unfold last_message in *. simpl. rewrite Hm, Hf. repeat split; auto.
  constructor; [|assumption]. unfold short_record. now rewrite Hr.
Qed.

End MessageFacts.

Section DiagnosticFacts.

Variables (cap : bool) (documentUri : jsstring).

Lemma push_all_map (critiques : list Critique.t) :
  forall diagnostics,
    Server.push_all cap documentUri diagnostics critiques =
    diagnostics ++ map (Server.diagnostic_of cap documentUri) critiques.
Proof.
  induction critiques as [|c cs IH]; intros diagnostics; simpl.
  - now rewrite app_nil_r.
  - now rewrite IH, <- app_assoc.
Qed.

End DiagnosticFacts.

(** ** The properties of the specification *)

(** C4: when the error text of the process is not empty, the result is the
    error state carrying that text unchanged, with no finding, whatever the
    output text is; the output text is not looked at. *)
Theorem C4_stderr_takes_precedence (outputStr errorStr : jsstring) :
  errorStr <> [] ->
  Output.constructor outputStr (Some errorStr) =
  Normal (Output.mk (Some errorStr) []).
Proof.
  intros Hne. unfold Output.constructor.
  destruct errorStr; [contradiction|reflexivity].
Qed.

(** The output text of the instance below would make the loop throw. *)
Lemma C4_witness :
  Output.constructor (js "1[>]2[>]3") (Some (js "Can't locate Perl/Critic.pm")) =
  Normal (Output.mk (Some (js "Can't locate Perl/Critic.pm")) []).
Proof.
  apply (C4_stderr_takes_precedence (js "1[>]2[>]3")
           (errorStr := js "Can't locate Perl/Critic.pm")).
  discriminate.
Defined.

(** C7: when every segment between end-of-record markers trims to the
    empty string (the empty output, and an output of markers and white
    space only, included) and the error text is absent or empty, the result
    has no error and no finding; each such segment leaves the object as it
    is. *)
Theorem C7_blank_segments_are_benign (outputStr : jsstring)
  (errorStr : option jsstring) :
  JS.truthy_string errorStr = false ->
  forallb (fun seg => JS.isEmpty (JS.trim seg))
    (JS.split Output.END_MARK outputStr) = true ->
  Output.constructor outputStr errorStr = Normal (Output.mk None [])
  /\ forall this seg,
       In seg (JS.split Output.END_MARK outputStr) ->
       Output.callback this seg = Normal this.
Proof.
  intros Herr Hblank.
  assert (Hall : Forall (fun r => blank_record r = true)
                   (JS.split Output.END_MARK outputStr)).
  { apply Forall_forall. intros r Hin.
    rewrite forallb_forall in Hblank. specialize (Hblank r Hin).
    unfold blank_record, Output.clean.
    destruct (JS.trim r); [reflexivity|discriminate]. }
  destruct (blank_stream Hall) as (Hm & Hf & Hshort).
  split.
  - rewrite constructor_returns by assumption. now rewrite Hm, Hf.
  - intros this seg Hin. rewrite Forall_forall in Hall, Hshort.
    rewrite callback_returns by auto.
    destruct (blank_contributes_nothing _ (Hall seg Hin)) as [-> ->].
    rewrite app_nil_r. now destruct this.
Qed.

Lemma C7_witness :
  Output.constructor ([10%N] ++ js "[[END]]  [[END]]" ++ [10%N]) (Some []) =
  Normal (Output.mk None [])
  /\ forall this seg,
       In seg (JS.split Output.END_MARK
                 ([10%N] ++ js "[[END]]  [[END]]" ++ [10%N])) ->
       Output.callback this seg = Normal this.
Proof.
  apply C7_blank_segments_are_benign; reflexivity.
Defined.

(** C9: the diagnostics are the critiques mapped one to one, in order: as
    many diagnostics as critiques, and the i-th diagnostic is the warning
    built from the i-th critique, from (line, column) to the end of the
    line, with the summary as message and the explanation as related
    information exactly when the client declared the capability. *)
Theorem C9_toDiagnostics_one_to_one (cap : bool) (documentUri : jsstring)
  (critiques : list Critique.t) :
  length (Server.toDiagnostics cap documentUri critiques) = length critiques
  /\ forall i : nat,
       nth_error (Server.toDiagnostics cap documentUri critiques) i =
       option_map
         (fun f =>
            let r :=
              Server.mkRange
                (Server.mkPosition (Critique.line f) (Critique.column f))
                (Server.mkPosition (Critique.line f)
                   (Some Server.Number_MAX_VALUE)) in
            Server.mkDiagnostic Server.Warning r (Critique.summary f)
              (js "perlcritic")
              (if cap
               then Some [Server.mkRelated (Server.mkLocation documentUri r)
                            (Critique.explanation f)]
               else None))
         (nth_error critiques i).
Proof.
  unfold Server.toDiagnostics. rewrite push_all_map. cbn [app]. split.
  - apply length_map.
  - intros i. rewrite nth_error_map. reflexivity.
Qed.

Section FindingFacts.

Lemma zero_based_max (z : Z) :
  Critique.zero_based (Some z) = Z.max (z - 1) 0.
Proof.
  unfold Critique.zero_based. destruct (Z.gtb_spec z 0); lia.
Qed.

Lemma five_fields_nonempty (text : jsstring) (l c s m e : jsstring)
  (rest : list jsstring) :
  JS.split Critique.FIELD_SEP text = l :: c :: s :: m :: e :: rest ->
  text <> [].
Proof. intros H ->. discriminate H. Qed.

(** A record that passes validation contributes its critique exactly when
    the zero-based severity that the critique holds is not zero. *)
Lemma findings_of_numeric (r l c s m e : jsstring) (rest : list jsstring)
  (Sp : Z) :
  JS.split Critique.FIELD_SEP (Output.clean r) = l :: c :: s :: m :: e :: rest ->
  Critique.isNumber (Some l) = true ->
  Critique.isNumber (Some c) = true ->
  Critique.isNumber (Some s) = true ->
  JS.parseInt (Some s) = Some Sp ->
  findings_of r =
  if (2 <=? Sp)%Z
  then [Critique.mk
          (Some (Critique.zero_based (JS.parseInt (Some l))))
          (Some (Critique.zero_based (JS.parseInt (Some c))))
          (Some (Sp - 1)%Z) (Some (JS.trim m)) (Some (JS.trim e)) None]
  else [].
Proof.
  intros Hsplit Hl Hc Hs HSp. unfold findings_of.
  rewrite (constructor_five (five_fields_nonempty Hsplit) Hsplit Hl Hc Hs).
  rewrite !parseInt_trim, HSp.
  cbn [Critique.error Critique.severity JS.truthy_string JS.truthy_number].
  rewrite zero_based_max.
  destruct (Z.leb_spec 2 Sp), (Z.eqb_spec (Z.max (Sp - 1) 0) 0);
    cbn [negb]; try lia; try reflexivity.
  now replace (Z.max (Sp - 1) 0) with (Sp - 1)%Z by lia.
Qed.

End FindingFacts.

(** C5: a record with five fields or more whose three leading fields pass
    validation and parse to Lp, Cp and Sp, safe integers (of magnitude up
    to 2^53 - 1, where the numbers of the code are exact), gives the
    critique with line = max(Lp - 1, 0), column = max(Cp - 1, 0),
    severity = max(Sp - 1, 0), and the fourth and fifth fields, trimmed, as
    summary and explanation; a finding that [Output] emits for the record
    is this critique. *)
Theorem C5_fields_are_zero_based_and_trimmed (text l c s m e : jsstring)
  (rest : list jsstring) (Lp Cp Sp : Z) :
  JS.split Critique.FIELD_SEP text = l :: c :: s :: m :: e :: rest ->
  Critique.isNumber (Some l) = true ->
  Critique.isNumber (Some c) = true ->
  Critique.isNumber (Some s) = true ->
  JS.parseInt (Some l) = Some Lp ->
  JS.parseInt (Some c) = Some Cp ->
  JS.parseInt (Some s) = Some Sp ->
  isSafeInteger Lp = true ->
  isSafeInteger Cp = true ->
  isSafeInteger Sp = true ->
  let finding :=
    Critique.mk (Some (Z.max (Lp - 1) 0)) (Some (Z.max (Cp - 1) 0))
      (Some (Z.max (Sp - 1) 0)) (Some (JS.trim m)) (Some (JS.trim e)) None in
  Critique.constructor text = Normal finding
  /\ forall r f, Output.clean r = text -> In f (findings_of r) -> f = finding.
Proof.
  intros Hsplit Hl Hc Hs HLp HCp HSp _ _ _ finding.
  assert (Hctor : Critique.constructor text = Normal finding).
  { rewrite (constructor_five (five_fields_nonempty Hsplit) Hsplit Hl Hc Hs).
    rewrite !parseInt_trim, HLp, HCp, HSp. now rewrite !zero_based_max. }
  split; [exact Hctor|].
  intros r f Hr. unfold findings_of. rewrite Hr, Hctor.
  destruct (JS.truthy_string _); [contradiction|].
  destruct (JS.truthy_number _); [|contradiction].
  intros [<-|[]]. reflexivity.
Qed.

(** Scenario A of the specification, with white space around the column
    and around the summary. *)
Lemma C5_witness :
  let finding :=
    Critique.mk (Some (Z.max (2 - 1) 0)) (Some (Z.max (5 - 1) 0))
      (Some (Z.max (3 - 1) 0))
      (Some (JS.trim (js " Bad thing. Explanation (Policy) ")))
      (Some (JS.trim (js "Policy::Name"))) None in
  Critique.constructor
    (js "2[>] 5 [>]3[>] Bad thing. Explanation (Policy) [>]Policy::Name") =
  Normal finding
  /\ forall r f,
       Output.clean r =
       js "2[>] 5 [>]3[>] Bad thing. Explanation (Policy) [>]Policy::Name" ->
       In f (findings_of r) -> f = finding.
Proof.
  apply (@C5_fields_are_zero_based_and_trimmed
           (js "2[>] 5 [>]3[>] Bad thing. Explanation (Policy) [>]Policy::Name")
           (js "2") (js " 5 ") (js "3")
           (js " Bad thing. Explanation (Policy) ") (js "Policy::Name") []
           2%Z 5%Z 3%Z); reflexivity.
Defined.

(** C2, on the code: a record of severity 1 passes validation and its
    critique has the zero-based severity 0, yet [Output] drops it, because
    the test [critique.severity] reads the zero-based value. *)
Theorem C2_severity_one_is_dropped :
  Critique.constructor (js "1[>]1[>]1[>]x[>]y") =
  Normal (Critique.mk (Some 0%Z) (Some 0%Z) (Some 0%Z)
            (Some (js "x")) (Some (js "y")) None)
  /\ Output.constructor (js "1[>]1[>]1[>]x[>]y[[END]]") None =
     Normal (Output.mk None []).
Proof. split; vm_compute; reflexivity. Qed.

(** C3, on the code: a record whose three leading fields are numeric and
    which has fewer than five fields makes the constructor throw. *)
Theorem C3_short_record_throws :
  Output.constructor (js "1[>]2[>]3") None =
  Throw (TypeError "Cannot read properties of undefined (reading 'trim')")
  /\ Output.constructor (js "1[>]2[>]3[>]msg[[END]]") None =
     Throw (TypeError "Cannot read properties of undefined (reading 'trim')").
Proof. split; vm_compute; reflexivity. Qed.

(** Whenever a record is short, the loop throws, wherever the record is. *)
Lemma constructor_throws (outputStr : jsstring) (errorStr : option jsstring) :
  JS.truthy_string errorStr = false ->
  existsb short_record (JS.split Output.END_MARK outputStr) = true ->
  Output.constructor outputStr errorStr =
  Throw (TypeError "Cannot read properties of undefined (reading 'trim')").
Proof.
  intros Herr Hex. unfold Output.constructor. rewrite Herr.
  destruct outputStr as [|c0 out']; [discriminate Hex|].
  apply forEach_throws. apply Exists_exists.
  apply existsb_exists in Hex. exact Hex.
Qed.

(** C1, on the code: the [return] that follows [this.error = ...] leaves
    the callback of [forEach], not the loop.  For the first stream, a
    malformed record between two well-formed ones, the result carries the
    error and both findings, the one read before the malformed record and
    the one read after it.  For the second stream the loop goes on from
    the malformed record to a short one and throws. *)
Theorem C1_loop_goes_on_after_a_malformed_record :
  (exists o,
     Output.constructor two_findings_around_a_malformed_record None = Normal o
     /\ Output.error o =
        Some (js "Invalid output format (Please check your perltidy settings): x[>]1[>]1[>]msg[>]exp")
     /\ Output.critiques o =
        [Critique.mk (Some 1%Z) (Some 4%Z) (Some 2%Z)
           (Some (js "a")) (Some (js "b")) None;
         Critique.mk (Some 3%Z) (Some 3%Z) (Some 3%Z)
           (Some (js "c")) (Some (js "d")) None]
     /\ Output.error o <> None /\ Output.critiques o <> [])
  /\ Output.constructor (js "x[>]1[>]1[>]msg[>]exp[[END]]1[>]2[>]3") None =
     Throw (TypeError "Cannot read properties of undefined (reading 'trim')").
Proof.
  split; [|vm_compute; reflexivity].
  eexists. split; [vm_compute; reflexivity|].
  cbn [Output.error Output.critiques]. repeat split; discriminate.
Qed.

(** C10: the message of the result is the one of the last record, in the
    order of the stream, that fails validation; malformed records before it
    do not show. *)
Theorem C10_last_malformed_record_wins (outputStr : jsstring)
  (errorStr : option jsstring) (pre post : list jsstring) (r : jsstring) :
  JS.truthy_string errorStr = false ->
  JS.split Output.END_MARK outputStr = pre ++ r :: post ->
  existsb short_record (pre ++ r :: post) = false ->
  fails_validation r = true ->
  existsb fails_validation post = false ->
  Output.constructor outputStr errorStr =
  Normal (Output.mk (Some (Critique.error_prefix ++ Output.clean r))
            (flat_map findings_of (pre ++ r :: post))).
Proof.
  intros Herr Hsplit Hshort Hr Hpost.
  rewrite constructor_returns
    by (try rewrite Hsplit; auto using existsb_false_Forall).
  rewrite Hsplit. now rewrite last_message_last.
Qed.

(** Two malformed records, a finding between them: the message is the one
    of the second. *)
Lemma C10_witness :
  Output.constructor two_malformed_records None =
  Normal (Output.mk
            (Some (Critique.error_prefix
                   ++ Output.clean (js "1[>]y[>]1[>]second[>]exp")))
            (flat_map findings_of
               ([js "x[>]1[>]1[>]first[>]exp"; js "2[>]5[>]3[>]a[>]b"]
                ++ js "1[>]y[>]1[>]second[>]exp" :: [[]]))).
Proof.
  apply (@C10_last_malformed_record_wins two_malformed_records None
           [js "x[>]1[>]1[>]first[>]exp"; js "2[>]5[>]3[>]a[>]b"] [[]]
           (js "1[>]y[>]1[>]second[>]exp"));
    vm_compute; reflexivity.
Defined.

(** C6, as the code has it: the record of the stream below is malformed
    and carries colour codes; the message quotes the record after cleaning
    and does not contain the text of the record as the analyzer wrote it. *)
Lemma C6_counterexample :
  JS.split Output.END_MARK (coloured_malformed_record ++ js "[[END]]") =
  [coloured_malformed_record; []]
  /\ fails_validation coloured_malformed_record = true
  /\ exists msg,
       Output.constructor (coloured_malformed_record ++ js "[[END]]") None =
       Normal (Output.mk (Some msg) [])
       /\ msg = js "Invalid output format (Please check your perltidy settings): x[>]1[>]1[>]msg[>]exp"
       /\ includes msg coloured_malformed_record = false.
Proof.
  split; [vm_compute; reflexivity|].
  split; [vm_compute; reflexivity|].
  eexists. split; [vm_compute; reflexivity|].
  split; vm_compute; reflexivity.
Qed.

(** C6, amended: when a non-blank record fails validation (and no record
    is short), the message of the result is the fixed prefix that points at
    the settings followed by the text of the last failing record of the
    stream as handed to [Critique], that is after [Output.clean]: trimmed
    and without the matches of the pattern. *)
Theorem C6_message_quotes_the_cleaned_record (outputStr : jsstring)
  (errorStr : option jsstring) :
  JS.truthy_string errorStr = false ->
  existsb short_record (JS.split Output.END_MARK outputStr) = false ->
  existsb fails_validation (JS.split Output.END_MARK outputStr) = true ->
  exists pre r post findings,
    JS.split Output.END_MARK outputStr = pre ++ r :: post
    /\ fails_validation r = true
    /\ existsb fails_validation post = false
    /\ Critique.constructor (Output.clean r) =
       Normal (Critique.mk None None None None None
                 (Some (Critique.error_prefix ++ Output.clean r)))
    /\ Output.constructor outputStr errorStr =
       Normal (Output.mk
                 (Some (js "Invalid output format (Please check your perltidy settings): "
                        ++ Output.clean r))
                 findings).
Proof.
  intros Herr Hshort Hfail.
  destruct (last_failing _ Hfail) as (pre & r & post & Hrs & Hr & Hpost).
  exists pre, r, post,
    (flat_map findings_of (JS.split Output.END_MARK outputStr)).
  split; [assumption|]. split; [assumption|]. split; [assumption|]. split.
  - unfold fails_validation, blank_record in Hr.
    apply andb_prop in Hr as [Hb Hn].
    apply constructor_invalid.
    + destruct (Output.clean r); [discriminate|congruence].
    + now destruct (numeric_fields (Output.clean r)).
  - rewrite constructor_returns by (auto using existsb_false_Forall).
    rewrite Hrs at 1. now rewrite last_message_last.
Qed.

(** Scenario C of the specification. *)
Lemma C6_witness :
  exists pre r post findings,
    JS.split Output.END_MARK (js "x[>]1[>]1[>]msg[>]exp[[END]]") =
    pre ++ r :: post
    /\ fails_validation r = true
    /\ existsb fails_validation post = false
    /\ Critique.constructor (Output.clean r) =
       Normal (Critique.mk None None None None None
                 (Some (Critique.error_prefix ++ Output.clean r)))
    /\ Output.constructor (js "x[>]1[>]1[>]msg[>]exp[[END]]") None =
       Normal (Output.mk
                 (Some (js "Invalid output format (Please check your perltidy settings): "
                        ++ Output.clean r))
                 findings).
Proof.
  apply C6_message_quotes_the_cleaned_record; vm_compute; reflexivity.
Defined.

(** C8, as the code has it: the CSI sequence ESC [ 12345 m, put in front
    of a well-formed record, is not removed in full: the digit group of the
    pattern takes four digits, the fifth is taken for the final byte, and
    the "m" stays in the line field; the CSI sequence ESC [ s is not
    removed at all, its final byte being outside the last class of the
    pattern.  Either record then fails validation. *)
Lemma C8_counterexample :
  well_formed plain_record = true
  /\ escape_free plain_record = true
  /\ Output.constructor (plain_record ++ js "[[END]]") None =
     Normal (Output.mk None
               [Critique.mk (Some 1%Z) (Some 4%Z) (Some 2%Z)
                  (Some (js "Bad thing")) (Some (js "Policy::Name")) None])
  /\ Output.clean long_parameter_record = js "m" ++ plain_record
  /\ fails_validation long_parameter_record = true
  /\ Output.constructor (long_parameter_record ++ js "[[END]]") None =
     Normal (Output.mk
               (Some (Critique.error_prefix ++ js "m" ++ plain_record)) [])
  /\ Output.clean saved_cursor_record = saved_cursor_record
  /\ fails_validation saved_cursor_record = true
  /\ Output.constructor (saved_cursor_record ++ js "[[END]]") None =
     Normal (Output.mk
               (Some (Critique.error_prefix ++ saved_cursor_record)) []).
Proof. repeat split; vm_compute; reflexivity. Qed.

(** C8, amended: for a well-formed record [w] without escape codes and
    [w'] obtained from it by inserting escape sequences of the shape
    [escape_sequence] (the colour codes among them), removing the matches
    of the pattern from [w'] gives [w] back; the cleaned text of [w'] has
    no escape code and is the cleaned text of [w] up to white space at its
    ends; [w'] passes validation and gives the same critique as [w]. *)
Theorem C8_inserted_sequences_are_stripped (w w' : jsstring) :
  well_formed w = true ->
  escape_free w = true ->
  inserted w w' ->
  JS.replace_all_empty Output.ANSI w' = w
  /\ escape_free (Output.clean w') = true
  /\ JS.trim (Output.clean w') = Output.clean w
  /\ well_formed w' = true
  /\ fails_validation w' = false
  /\ Critique.constructor (Output.clean w') =
     Critique.constructor (Output.clean w).
Proof.
  intros Hwf Hfree Hins.
  split; [now apply strip_inserted|].
  destruct (@inserted_trim w w' Hins) as (a & u & b & Hw & Ha & Hb & Hu).
  assert (Hfu : escape_free u = true).
  { rewrite Hw, !escape_free_app in Hfree.
    apply andb_prop in Hfree as [_ Hfree]. now apply andb_prop in Hfree. }
  assert (Hclean' : Output.clean w' = u)
    by (unfold Output.clean; now apply strip_inserted).
  destruct (trim_decomp u) as (a' & b' & Hu' & Ha' & Hb').
  assert (Hclean : Output.clean w = JS.trim u).
  { unfold Output.clean. rewrite Hw, trim_ws_app, trim_app_ws by assumption.
    apply strip_escape_free. rewrite Hu', !escape_free_app in Hfu.
    apply andb_prop in Hfu as [_ Hfu]. now apply andb_prop in Hfu. }
  destruct (@well_formed_inv w Hwf) as (Hne & Hnum & Hlen).
  rewrite Hclean in Hne, Hnum, Hlen.
  destruct (@constructor_ws_invariant a' (JS.trim u) b' Ha' Hb' Hnum Hlen)
    as (Hctor & Hnum' & Hlen').
  rewrite <- Hu' in Hctor, Hnum', Hlen'.
  assert (Hwf' : well_formed w' = true).
  { apply well_formed_intro; rewrite Hclean'; auto.
    intros ->. now apply Hne. }
  rewrite Hclean', Hclean. repeat split; auto.
  unfold fails_validation. rewrite Hclean', Hnum'. apply andb_false_r.
Qed.

(** The record in red up to its second field, with ESC[K at its end. *)
Lemma C8_witness :
  JS.replace_all_empty Output.ANSI coloured_record = plain_record
  /\ escape_free (Output.clean coloured_record) = true
  /\ JS.trim (Output.clean coloured_record) = Output.clean plain_record
  /\ well_formed coloured_record = true
  /\ fails_validation coloured_record = false
  /\ Critique.constructor (Output.clean coloured_record) =
     Critique.constructor (Output.clean plain_record).
Proof.
  apply C8_inserted_sequences_are_stripped; [reflexivity|reflexivity|].
  vm_compute.
  apply (@inserted_seq [27; 91; 49; 59; 51; 49; 109]%N).
  { apply (@escape_sequence_intro 27 [91]%N [49; 59; 51; 49]%N 109);
      try reflexivity.
    apply (@some_parameters [49]%N [[51; 49]%N]); reflexivity. }
  repeat apply inserted_keep.
  apply (@inserted_seq [27; 91; 48; 109]%N).
  { apply (@escape_sequence_intro 27 [91]%N [48]%N 109); try reflexivity.
    apply (@some_parameters [48]%N []); reflexivity. }
  repeat apply inserted_keep.
  apply (@inserted_seq [27; 91; 75]%N _ []).
  { apply (@escape_sequence_intro 27 [91]%N [] 75); try reflexivity.
    constructor. }
  constructor.
Defined.

(** ** [split] after [join] *)

Section JoinFacts.

Lemma startsWith_app_false (sep : jsstring) :
  forall b X : jsstring,
    JS.startsWith sep b = false -> JS.startsWith b sep = false ->
    JS.startsWith sep (b ++ X) = false.
Proof.
  induction sep as [|s0 sep IH]; intros b X H1 H2; [discriminate H1|].
  destruct b as [|c b]; [discriminate H2|].
  simpl in *. rewrite (N.eqb_sym c s0) in H2.
  destruct (s0 =? c)%N; [|reflexivity].
  simpl in *. now apply IH.
Qed.

Lemma startsWith_self (sep X : jsstring) : JS.startsWith sep (sep ++ X) = true.
Proof.
  induction sep as [|s0 sep IH]; simpl; [reflexivity|].
  now rewrite N.eqb_refl.
Qed.

Lemma split_aux_free (sep r X : jsstring) :
  forall cur, free_of sep r = true ->
    JS.split_aux sep 0 cur (r ++ X) = JS.split_aux sep 0 (rev r ++ cur) X.
Proof.
  induction r as [|c r IH]; intros cur Hfree; [reflexivity|].
  cbn [free_of] in Hfree.
  apply andb_prop in Hfree as [H Hfree]. apply andb_prop in H as [H1 H2].
  apply negb_true_iff in H1, H2.
  cbn [app JS.split_aux].
  change (c :: r ++ X) with ((c :: r) ++ X).
  rewrite startsWith_app_false by assumption.
  rewrite IH by assumption. cbn [rev]. now rewrite <- app_assoc.
Qed.

Lemma split_aux_skip (sep a X : jsstring) (cur : jsstring) :
  JS.split_aux sep (length a) cur (a ++ X) = JS.split_aux sep 0 cur X.
Proof. induction a as [|c a IH]; [reflexivity|exact IH]. Qed.

Lemma split_aux_at_sep (sep X cur : jsstring) :
  sep <> [] ->
  JS.split_aux sep 0 cur (sep ++ X) = rev cur :: JS.split_aux sep 0 [] X.
Proof.
  intros sep_nonempty.
  pose proof (startsWith_self sep X) as Hs.
  destruct sep as [|s0 sep']; [contradiction|].
  cbn [app JS.split_aux] in *. rewrite Hs.
  cbn [length Nat.pred]. now rewrite split_aux_skip.
Qed.

Lemma split_record_then (sep r X : jsstring) :
  sep <> [] ->
  free_of sep r = true ->
  JS.split sep (r ++ sep ++ X) = r :: JS.split sep X.
Proof.
  intros Hsep Hfree. unfold JS.split.
  rewrite split_aux_free by assumption.
  rewrite split_aux_at_sep, app_nil_r by assumption.
  now rewrite rev_involutive.
Qed.

Lemma split_free (sep r : jsstring) :
  free_of sep r = true -> JS.split sep r = [r].
Proof.
  intros Hfree. unfold JS.split.
  rewrite <- (app_nil_r r) at 1. rewrite split_aux_free by assumption.
  simpl. now rewrite app_nil_r, rev_involutive.
Qed.

Lemma split_join (sep : jsstring) (parts : list jsstring) :
  sep <> [] ->
  parts <> [] ->
  forallb (free_of sep) parts = true ->
  JS.split sep (JSArray.join sep parts) = parts.
Proof.
  intros Hsep.
  induction parts as [|p parts IH]; intros Hne Hfree; [contradiction|].
  simpl in Hfree. apply andb_prop in Hfree as [Hp Hfree].
  destruct parts as [|q parts].
  - now apply split_free.
  - change (JSArray.join sep (p :: q :: parts))
      with (p ++ sep ++ JSArray.join sep (q :: parts)).
    rewrite split_record_then by assumption.
    rewrite IH; [reflexivity|discriminate|assumption].
Qed.

End JoinFacts.

Lemma END_MARK_nonempty : Output.END_MARK <> [].
Proof. discriminate. Qed.

Lemma split_stream (rs : list jsstring) :
  forallb (free_of Output.END_MARK) rs = true ->
  JS.split Output.END_MARK (stream rs) = rs ++ [[]].
Proof.
  induction rs as [|r rs IH]; intros Hfree; [reflexivity|].
  simpl in Hfree. apply andb_prop in Hfree as [Hr Hfree].
  unfold stream in *. cbn [map concat]. rewrite <- app_assoc.
  rewrite split_record_then by (assumption || apply END_MARK_nonempty).
  now rewrite IH.
Qed.

(** ** Fields of decimal digits *)

Section DigitFacts.

Lemma isDigit_range (c : N) : JS.isDigit c = true -> (48 <= c <= 57)%N.
Proof.
  unfold JS.isDigit. intros H. apply andb_prop in H as [H1 H2].
  apply N.leb_le in H1, H2. lia.
Qed.

Lemma isDigit_radix10 (c : N) :
  JS.isDigit c = true -> JS.isRadixDigit 10 c = true.
Proof.
  intros H. pose proof (isDigit_range _ H) as Hr.
  unfold JS.isRadixDigit, JS.digitValue. unfold JS.isDigit in H. rewrite H.
  apply Z.ltb_lt. lia.
Qed.

Lemma isDigit_not_ws (c : N) :
  JS.isDigit c = true -> JS.isWhiteSpace c = false.
Proof. intros H. apply isDigit_range in H. apply not_ws. lia. Qed.

Lemma takeWhile_all (p : N -> bool) (ds : jsstring) :
  forallb p ds = true -> JS.takeWhile p ds = ds.
Proof.
  induction ds as [|d ds IH]; simpl; [reflexivity|].
  intros H. apply andb_prop in H as [-> H]. now rewrite IH.
Qed.

Lemma dropWhile_all (p : N -> bool) (ds : jsstring) :
  forallb p ds = true -> JS.dropWhile p ds = [].
Proof.
  induction ds as [|d ds IH]; simpl; [reflexivity|].
  intros H. apply andb_prop in H as [-> H]. auto.
Qed.

Lemma trim_no_ws (s : jsstring) :
  forallb (fun c => negb (JS.isWhiteSpace c)) s = true -> JS.trim s = s.
Proof.
  intros H. unfold JS.trim.
  assert (Hs : JS.trimStart s = s).
  { destruct s as [|c s]; [reflexivity|]. simpl in *.
    apply andb_prop in H as [Hc _]. apply negb_true_iff in Hc. now rewrite Hc. }
  rewrite Hs. clear Hs.
  induction s as [|c s IH]; [reflexivity|].
  simpl in H. apply andb_prop in H as [Hc H]. apply negb_true_iff in Hc.
  rewrite trimEnd_cons by assumption. now rewrite IH.
Qed.

Lemma digits_no_ws (ds : jsstring) :
  forallb JS.isDigit ds = true ->
  forallb (fun c => negb (JS.isWhiteSpace c)) ds = true.
Proof.
  intros H. apply forallb_forall. intros c Hc.
  rewrite forallb_forall in H. now rewrite isDigit_not_ws by auto.
Qed.

Lemma parseDigits_digits (ds : jsstring) :
  ds <> [] -> forallb JS.isDigit ds = true ->
  JS.parseDigits ds = Some (JS.digitsValue 10 ds).
Proof.
  intros Hne Hds. unfold JS.parseDigits.
  destruct ds as [|d ds]; [contradiction|].
  pose proof Hds as Hall. simpl in Hds. apply andb_prop in Hds as [Hd Hds].
  pose proof (isDigit_range _ Hd) as Hr.
  assert (Hsign : JS.signOf (d :: ds) = (1%Z, d :: ds)).
  { unfold JS.signOf.
    destruct (N.eqb_spec d 45); [lia|]. destruct (N.eqb_spec d 43); [lia|].
    reflexivity. }
  rewrite Hsign.
  assert (Hradix : JS.radixOf (d :: ds) = (10%Z, d :: ds)).
  { unfold JS.radixOf. destruct ds as [|x ds]; [reflexivity|].
    simpl in Hds. apply andb_prop in Hds as [Hx _].
    apply isDigit_range in Hx.
    destruct (N.eqb_spec x 120); [lia|]. destruct (N.eqb_spec x 88); [lia|].
    now rewrite andb_false_r. }
  rewrite Hradix.
  rewrite takeWhile_all.
  - now destruct (JS.digitsValue 10 (d :: ds)).
  - apply forallb_forall. intros c Hc. rewrite forallb_forall in Hall.
    apply isDigit_radix10. auto.
Qed.

Lemma digits_not_Infinity (d : N) (ds : jsstring) :
  JS.isDigit d = true -> jsstring_eqb (d :: ds) (js "Infinity") = false.
Proof.
  intros Hd. apply isDigit_range in Hd. unfold jsstring_eqb.
  destruct (list_eq_dec N.eq_dec (d :: ds) (js "Infinity")) as [E|]; [|reflexivity].
  apply (f_equal (@hd N 0%N)) in E. vm_compute in E. lia.
Qed.

Lemma overflowBound_pos : (0 < JS.overflowBound)%Z.
Proof. reflexivity. Qed.

Lemma StringToNumber_digits (ds : jsstring) :
  ds <> [] -> forallb JS.isDigit ds = true ->
  JS.StringToNumber ds =
  if (JS.digitsValue 10 ds <? JS.overflowBound)%Z
  then JS.IsFinite else JS.IsInfinite.
Proof.
  intros Hne Hds. unfold JS.StringToNumber.
  rewrite trim_no_ws by now apply digits_no_ws.
  destruct ds as [|d ds]; [contradiction|].
  pose proof Hds as Hall. simpl in Hds. apply andb_prop in Hds as [Hd Hds].
  pose proof (isDigit_range _ Hd) as Hr.
  assert (Hnd : JS.nonDecimal (d :: ds) = None).
  { unfold JS.nonDecimal. destruct ds as [|x ds]; [reflexivity|].
    simpl in Hds. apply andb_prop in Hds as [Hx _].
    apply isDigit_range in Hx.
    destruct (N.eqb_spec d 48); cbn [negb]; [|reflexivity].
    destruct (N.eqb_spec x 120); [lia|]. destruct (N.eqb_spec x 88); [lia|].
    destruct (N.eqb_spec x 111); [lia|]. destruct (N.eqb_spec x 79); [lia|].
    destruct (N.eqb_spec x 98); [lia|]. destruct (N.eqb_spec x 66); [lia|].
    reflexivity. }
  rewrite Hnd.
  destruct (N.eqb_spec d 43); [lia|]. destruct (N.eqb_spec d 45); [lia|].
  cbn [orb]. unfold JS.unsignedDecimal.
  rewrite digits_not_Infinity by assumption.
  rewrite takeWhile_all, dropWhile_all by assumption.
  unfold JS.decimalClass. rewrite app_nil_r. cbn [length Z.of_nat].
  destruct (Z.eqb_spec (JS.digitsValue 10 (d :: ds)) 0) as [E|E].
  - rewrite E. reflexivity.
  - cbn. now rewrite Z.mul_1_r.
Qed.

Lemma isNumber_digits (ds : jsstring) :
  ds <> [] -> forallb JS.isDigit ds = true ->
  Critique.isNumber (Some ds) = (JS.digitsValue 10 ds <? JS.overflowBound)%Z
  /\ JS.parseInt (Some ds) = Some (JS.digitsValue 10 ds).
Proof.
  intros Hne Hds.
  assert (Hp : JS.parseInt (Some ds) = Some (JS.digitsValue 10 ds)).
  { unfold JS.parseInt, JS.ToString.
    replace (JS.trimStart ds) with ds; [now apply parseDigits_digits|].
    destruct ds as [|d ds]; [reflexivity|]. simpl in *.
    apply andb_prop in Hds as [Hd _]. now rewrite isDigit_not_ws. }
  split; [|exact Hp].
  unfold Critique.isNumber, JS.isFinite. rewrite Hp. cbn [JS.isNaN negb andb].
  rewrite StringToNumber_digits by assumption.
  now destruct (_ <? _)%Z.
Qed.

Lemma isNumber_app_ws (l b : jsstring) :
  forallb JS.isWhiteSpace b = true ->
  Critique.isNumber (Some (l ++ b)) = Critique.isNumber (Some l).
Proof.
  intros Hb. unfold Critique.isNumber, JS.parseInt, JS.isFinite,
    JS.StringToNumber, JS.ToString.
  rewrite trim_app_ws by assumption.
  rewrite trimStart_app_ws by assumption.
  destruct (JS.trimStart l) as [|c t] eqn:E; [reflexivity|].
  now rewrite parseDigits_app_ws.
Qed.

Lemma digitsValue_snoc (ds : jsstring) (d : N) :
  JS.digitsValue 10 (ds ++ [d]) =
  (JS.digitsValue 10 ds * 10
   + match JS.digitValue d with Some v => v | None => 0 end)%Z.
Proof. unfold JS.digitsValue. now rewrite fold_left_app. Qed.

Lemma digitsValue_bound (ds : jsstring) :
  forallb JS.isDigit ds = true ->
  (0 <= JS.digitsValue 10 ds < 10 ^ Z.of_nat (length ds))%Z.
Proof.
  induction ds as [|d ds IH] using rev_ind; intros H.
  - vm_compute. split; [discriminate|reflexivity].
  - rewrite forallb_app in H. apply andb_prop in H as [Hds Hd].
    simpl in Hd. rewrite andb_true_r in Hd.
    specialize (IH Hds). rewrite digitsValue_snoc, length_app.
    pose proof (isDigit_range _ Hd) as Hr.
    unfold JS.digitValue. unfold JS.isDigit in Hd. rewrite Hd.
    rewrite Nat2Z.inj_add, Z.pow_add_r by lia. simpl (10 ^ Z.of_nat (length [d]))%Z.
    change (10 ^ 1)%Z with 10%Z. lia.
Qed.

Lemma digits_below_overflow (ds : jsstring) :
  forallb JS.isDigit ds = true -> (length ds <= 308)%nat ->
  (JS.digitsValue 10 ds <? JS.overflowBound)%Z = true.
Proof.
  intros Hds Hlen. apply Z.ltb_lt.
  pose proof (digitsValue_bound _ Hds) as [_ Hb].
  assert (10 ^ Z.of_nat (length ds) <= 10 ^ 308)%Z
    by (apply Z.pow_le_mono_r; lia).
  assert (10 ^ 308 < JS.overflowBound)%Z by reflexivity.
  lia.
Qed.

End DigitFacts.

Section ShapeFacts.

Lemma zero_based_nonneg (n : option Z) : (0 <= Critique.zero_based n)%Z.
Proof.
  destruct n as [z|]; simpl; [|lia]. destruct (Z.gtb_spec z 0); lia.
Qed.

(** The four outcomes of [Critique.constructor]. *)
Lemma constructor_cases (text : jsstring) :
  (text = [] /\ Critique.constructor text = Normal Critique.blank)
  \/ (text <> [] /\ numeric_fields text = false
      /\ Critique.constructor text =
         Normal (Critique.mk None None None None None
                   (Some (Critique.error_prefix ++ text))))
  \/ (text <> [] /\ numeric_fields text = true
      /\ (length (JS.split Critique.FIELD_SEP text) < 5)%nat
      /\ Critique.constructor text =
         Throw (TypeError "Cannot read properties of undefined (reading 'trim')"))
  \/ (text <> [] /\ numeric_fields text = true
      /\ (5 <= length (JS.split Critique.FIELD_SEP text))%nat
      /\ exists c, Critique.constructor text = Normal c /\ complete c).
Proof.
  destruct text as [|c0 text'] eqn:Ht; [left; now split|]. rewrite <- Ht.
  assert (Hne : text <> []) by (rewrite Ht; discriminate).
  right. destruct (numeric_fields text) eqn:Hnum.
  - right.
    destruct (Nat.lt_ge_cases (length (JS.split Critique.FIELD_SEP text)) 5)
      as [Hlen|Hlen].
    + left. repeat split; auto. now apply constructor_short.
    + right. repeat split; auto.
      destruct (constructor_long Hne Hnum Hlen)
        as (l & c & s & m & e & rest & _ & Hctor).
      eexists. split; [exact Hctor|].
      do 5 eexists. split; [reflexivity|].
      repeat split; try apply zero_based_nonneg; apply trim_idem.
  - left. repeat split; auto. now apply constructor_invalid.
Qed.

Lemma findings_of_complete (r : jsstring) (f : Critique.t) :
  In f (findings_of r) ->
  complete f /\ exists s, Critique.severity f = Some s /\ (1 <= s)%Z.
Proof.
  unfold findings_of.
  destruct (constructor_cases (Output.clean r))
    as [[_ H]|[(_ & _ & H)|[(_ & _ & _ & H)|(_ & _ & _ & c & H & Hc)]]];
    rewrite H; try contradiction.
  destruct Hc as (l & cc & s & m & e & -> & Hl & Hcc & Hs & Hm & He).
  cbn [Critique.error Critique.severity JS.truthy_string JS.truthy_number].
  destruct (Z.eqb_spec s 0); cbn [negb]; [contradiction|].
  intros [<-|[]]. split.
  - now exists l, cc, s, m, e.
  - exists s. split; [reflexivity|lia].
Qed.

Lemma findings_of_at_most_one (r : jsstring) : (length (findings_of r) <= 1)%nat.
Proof.
  unfold findings_of. destruct (Critique.constructor (Output.clean r)); simpl;
    [|lia].
  destruct (JS.truthy_string _); simpl; [lia|].
  destruct (JS.truthy_number _); simpl; lia.
Qed.

Lemma flat_map_findings_length (rs : list jsstring) :
  (length (flat_map findings_of rs) <= length rs)%nat.
Proof.
  induction rs as [|r rs IH]; simpl; [lia|].
  rewrite length_app. pose proof (findings_of_at_most_one r). lia.
Qed.

(** [new Output(outputStr, errorStr)] in closed form. *)
Lemma constructor_closed_form (outputStr : jsstring)
  (errorStr : option jsstring) :
  Output.constructor outputStr errorStr =
  if JS.truthy_string errorStr then Normal (Output.mk errorStr [])
  else if existsb short_record (JS.split Output.END_MARK outputStr)
       then Throw (TypeError "Cannot read properties of undefined (reading 'trim')")
       else Normal (Output.mk
                      (last_message None (JS.split Output.END_MARK outputStr))
                      (flat_map findings_of (JS.split Output.END_MARK outputStr))).
Proof.
  destruct (JS.truthy_string errorStr) eqn:Herr.
  - unfold Output.constructor. now rewrite Herr.
  - destruct (existsb short_record _) eqn:Hshort.
    + now apply constructor_throws.
    + apply constructor_returns; [assumption|].
      now apply existsb_false_Forall.
Qed.

Lemma output_findings_complete (outputStr : jsstring)
  (errorStr : option jsstring) (o : Output.t) :
  Output.constructor outputStr errorStr = Normal o ->
  forall f, In f (Output.critiques o) ->
    complete f /\ exists s, Critique.severity f = Some s /\ (1 <= s)%Z.
Proof.
  rewrite constructor_closed_form.
  destruct (JS.truthy_string errorStr).
  - intros [= <-] f [].
  - destruct (existsb short_record _); [discriminate|].
    intros [= <-] f Hin. cbn [Output.critiques] in Hin.
    apply in_flat_map in Hin as (r & _ & Hin).
    now apply findings_of_complete in Hin.
Qed.

Lemma last_message_shape (rs : list jsstring) (e0 : option jsstring) :
  (forall m, e0 = Some m -> m <> []) ->
  forall m, last_message e0 rs = Some m -> m <> [].
Proof.
  revert e0. induction rs as [|r rs IH]; intros e0 H0 m Hm.
  - now apply H0.
  - unfold last_message in *. simpl in Hm.
    apply IH in Hm; [assumption|].
    unfold message_of. destruct (fails_validation r); [|assumption].
    intros m' [= <-]. discriminate.
Qed.

End ShapeFacts.

Section RecordFacts.

Lemma digits_free_of_FIELD_SEP (ds : jsstring) :
  forallb JS.isDigit ds = true -> free_of Critique.FIELD_SEP ds = true.
Proof.
  induction ds as [|d ds IH]; [reflexivity|].
  intros H. simpl in H. apply andb_prop in H as [Hd Hds].
  apply isDigit_range in Hd.
  cbn [free_of]. rewrite IH by assumption.
  change Critique.FIELD_SEP with [91; 62; 93]%N. cbn [JS.startsWith].
  destruct (N.eqb_spec 91 d); [lia|]. destruct (N.eqb_spec d 91); [lia|].
  reflexivity.
Qed.

Lemma well_formed_passes (r : jsstring) :
  well_formed r = true ->
  short_record r = false /\ fails_validation r = false.
Proof.
  unfold well_formed, short_record, fails_validation.
  intros H. apply andb_prop in H as [H Hlen]. apply andb_prop in H as [-> ->].
  apply Nat.leb_le in Hlen. split; [|reflexivity].
  cbn [andb]. apply Nat.ltb_ge. exact Hlen.
Qed.

Lemma well_formed_stream (rs : list jsstring) :
  forallb well_formed rs = true ->
  existsb short_record (rs ++ [[]]) = false
  /\ existsb fails_validation (rs ++ [[]]) = false.
Proof.
  induction rs as [|r rs IH]; intros H; [split; reflexivity|].
  simpl in H. apply andb_prop in H as [Hr H].
  destruct (well_formed_passes _ Hr) as [Hs Hf].
  destruct (IH H) as [IHs IHf].
  cbn [app existsb]. now rewrite Hs, Hf, IHs, IHf.
Qed.

Lemma escape_only_is_blank (a w' b : jsstring) :
  inserted [] w' ->
  forallb JS.isWhiteSpace a = true ->
  forallb JS.isWhiteSpace b = true ->
  Output.clean (a ++ w' ++ b) = [].
Proof.
  intros Hins Ha Hb. unfold Output.clean.
  rewrite trim_ws_app, trim_app_ws by assumption.
  destruct (@inserted_trim [] w' Hins) as (a0 & u & b0 & Hw & _ & _ & Hu).
  assert (u = []) as ->.
  { destruct a0; [|discriminate]. destruct u; [reflexivity|discriminate]. }
  now apply strip_inserted.
Qed.

Lemma callback_blank (this : Output.t) (r : jsstring) :
  Output.clean r = [] -> Output.callback this r = Normal this.
Proof.
  intros H. unfold Output.callback. rewrite H. now destruct this.
Qed.

End RecordFacts.

(** ** Settings *)

Section SettingsFacts.

Lemma js_cons (a : ascii) (s : string) :
  js (String a s) = N_of_ascii a :: js s.
Proof. reflexivity. Qed.

Lemma string_of_uint_digits (d : Decimal.uint) :
  forallb JS.isDigit (js (NilEmpty.string_of_uint d)) = true.
Proof.
  induction d; cbn [NilEmpty.string_of_uint]; rewrite ?js_cons;
    cbn [forallb]; try rewrite IHd; reflexivity.
Qed.

Lemma digits_top_chars (s : jsstring) :
  forallb JS.isDigit s = true -> forallb top_char s = true.
Proof.
  intros H. apply forallb_forall. intros c Hc.
  rewrite forallb_forall in H. unfold top_char. now rewrite H.
Qed.

Lemma Number_toString_top_chars (n : Z) :
  forallb top_char (js "--top=" ++ JSArray.Number_toString n) = true.
Proof.
  rewrite forallb_app. apply andb_true_intro. split; [reflexivity|].
  unfold JSArray.Number_toString.
  assert (Hu : forall d, forallb top_char (js (NilZero.string_of_uint d)) = true).
  { intros d. destruct d; try apply digits_top_chars;
      try apply (string_of_uint_digits (_ d)); reflexivity. }
  destruct n as [|p|p]; cbn [Z.to_int NilZero.string_of_int].
  - reflexivity.
  - apply Hu.
  - rewrite js_cons. cbn [forallb]. now rewrite Hu.
Qed.

Lemma startsWith_In (x : N) (w : jsstring) :
  forall s, JS.startsWith w s = true -> In x w -> In x s.
Proof.
  induction w as [|a w IH]; intros s Hs Hin; [contradiction|].
  destruct s as [|c s]; [discriminate|]. simpl in Hs.
  apply andb_prop in Hs as [Hac Hs]. apply N.eqb_eq in Hac. subst c.
  destruct Hin as [->|Hin]; [now left|]. right. now apply IH.
Qed.

(** A word with a character that [s] does not have does not occur in [s]. *)
Lemma includes_missing (x : N) (w s : jsstring) :
  In x w -> forallb (fun c => negb (c =? x)%N) s = true -> includes s w = false.
Proof.
  intros Hin. induction s as [|c s IH]; intros Hs.
  - simpl. destruct w; [contradiction|reflexivity].
  - simpl in Hs. apply andb_prop in Hs as [Hc Hs].
    cbn [includes]. rewrite IH by assumption. rewrite orb_false_r.
    destruct (JS.startsWith w (c :: s)) eqn:E; [|reflexivity].
    apply (startsWith_In x) in E; [|assumption].
    exfalso. rewrite forallb_forall in Hs.
    destruct E as [->|E].
    + now rewrite N.eqb_refl in Hc.
    + specialize (Hs _ E). now rewrite N.eqb_refl in Hs.
Qed.

Lemma top_chars_miss (x : N) (s : jsstring) :
  top_char x = false -> forallb top_char s = true ->
  forallb (fun c => negb (c =? x)%N) s = true.
Proof.
  intros Hx Hs. apply forallb_forall. intros c Hc.
  rewrite forallb_forall in Hs. specialize (Hs c Hc).
  destruct (N.eqb_spec c x) as [->|]; [congruence|reflexivity].
Qed.

(** The argument [--top=N] never looks like a change of format. *)
Lemma top_argument_passes (n : Z) :
  Settings.changes_format (js "--top=" ++ JSArray.Number_toString n) = false.
Proof.
  pose proof (Number_toString_top_chars n) as Htop.
  unfold Settings.changes_format, Settings.FORMAT_WORDS. cbn [existsb].
  rewrite (@includes_missing 99 (js "count")), (@includes_missing 108 (js "list")),
    (@includes_missing 114 (js "profile-proto")),
    (@includes_missing 115 (js "statistics-only")),
    (@includes_missing 67 (js "-C")), (@includes_missing 97 (js "pager")),
    (@includes_missing 100 (js "doc")), (@includes_missing 118 (js "verbose")),
    (@includes_missing 113 (js "quiet"));
    try reflexivity; try (apply top_chars_miss; [reflexivity|assumption]);
    vm_compute; tauto.
Qed.

Lemma indexOf_from_absent (x : jsstring) (a : list jsstring) :
  forall i, (0 <= i)%Z ->
    (JSArray.indexOf_from i a x =? -1)%Z = negb (existsb (fun y => jsstring_eqb y x) a).
Proof.
  induction a as [|y a IH]; intros i Hi; [reflexivity|].
  cbn [JSArray.indexOf_from existsb].
  destruct (jsstring_eqb y x); cbn [orb negb].
  - apply Z.eqb_neq. lia.
  - apply IH. lia.
Qed.

Lemma jsstring_eqb_eq (a b : jsstring) : jsstring_eqb a b = true <-> a = b.
Proof.
  unfold jsstring_eqb. destruct (list_eq_dec N.eq_dec a b); split;
    congruence.
Qed.

Lemma indexOf_absent (x : jsstring) (a : list jsstring) :
  (JSArray.indexOf a x =? -1)%Z = true <-> ~ In x a.
Proof.
  unfold JSArray.indexOf. rewrite indexOf_from_absent by lia.
  rewrite negb_true_iff. split.
  - intros H Hin.
    assert (E : existsb (fun y => jsstring_eqb y x) a = true).
    { apply existsb_exists. exists x. split; [assumption|].
      now apply jsstring_eqb_eq. }
    congruence.
  - intros H. apply Bool.not_true_iff_false. intros E.
    apply existsb_exists in E as (y & Hy & E). apply jsstring_eqb_eq in E.
    subst. contradiction.
Qed.

Lemma severity_flag_passes (name : jsstring) :
  In name Settings.severity_names ->
  Settings.changes_format (js "--" ++ name) = false.
Proof.
  unfold Settings.severity_names.
  intros [<-|[<-|[<-|[<-|[<-|[]]]]]]; vm_compute; reflexivity.
Qed.

(** [mergeSettings] on settings that are there, in closed form. *)
Lemma mergeSettings_closed_form (ns : Settings.PerlcriticSettings) :
  Settings.mergeSettings (Some ns) =
  Settings.mk (Settings.maxNumberOfProblems ns) (Settings.executable ns)
    (Settings.severity ns) (Settings.onSave ns)
    (Settings.additionalArguments Settings.defaultSettings
     ++ filter (fun a => negb (Settings.changes_format a))
          (Settings.additionalArguments ns)
     ++ (if existsb (fun y => jsstring_eqb y (js "--profile"))
              (Settings.additionalArguments ns)
            || existsb (fun y => jsstring_eqb y (js "-p"))
                 (Settings.additionalArguments ns)
         then []
         else filter (fun a => negb (Settings.changes_format a))
                [js "--" ++ Settings.severity ns])
     ++ [js "--top="
         ++ JSArray.Number_toString (Settings.maxNumberOfProblems ns)]).
Proof.
  unfold Settings.mergeSettings. f_equal. f_equal.
  unfold JSArray.indexOf. rewrite !indexOf_from_absent by lia.
  rewrite <- negb_orb.
  destruct (existsb _ _ || existsb _ _); cbn [negb];
    rewrite !filter_app; cbn [filter]; rewrite top_argument_passes;
    cbn [negb]; rewrite ?app_nil_l, <- ?app_assoc; reflexivity.
Qed.

End SettingsFacts.

(** ** The executable *)

Section ExecutableFacts.

Variable accessSync : jsstring -> bool.
Variable which_sync : jsstring -> jsstring + jsstring.

Lemma jsstring_eqb_refl (a : jsstring) : jsstring_eqb a a = true.
Proof. now apply jsstring_eqb_eq. Qed.

Lemma validateExecutable_hit (e r : jsstring) (rest : list jsstring) :
  Executable.validateExecutable accessSync which_sync (e :: r :: rest) e =
  (e :: r :: rest, [], Some r).
Proof.
  unfold Executable.validateExecutable.
  cbn [length Nat.eqb nth_error orb]. now rewrite jsstring_eqb_refl.
Qed.

End ExecutableFacts.

Section CycleFacts.

Lemma decimal_field_inv (ds : jsstring) :
  decimal_field ds = true ->
  ds <> [] /\ forallb JS.isDigit ds = true /\ (length ds <= 15)%nat.
Proof.
  unfold decimal_field. intros H.
  apply andb_prop in H as [H Hlen]. apply andb_prop in H as [Hne Hds].
  apply Nat.leb_le in Hlen. repeat split; auto.
  intros ->. discriminate Hne.
Qed.

Lemma decimal_field_numeric (ds : jsstring) :
  decimal_field ds = true ->
  Critique.isNumber (Some ds) = true
  /\ JS.parseInt (Some ds) = Some (JS.digitsValue 10 ds).
Proof.
  intros H. apply decimal_field_inv in H as (Hne & Hds & Hlen).
  destruct (isNumber_digits Hne Hds) as [Hn Hp].
  now rewrite Hn, digits_below_overflow by (assumption || lia).
Qed.

Lemma truthy_string_Some (e : jsstring) :
  JS.truthy_string (Some e) = negb (JS.isEmpty e).
Proof. now destruct e. Qed.

Lemma diagnostic_of_well_placed (cap : bool) (documentUri : jsstring)
  (f : Critique.t) :
  complete f -> well_placed cap (Server.diagnostic_of cap documentUri f).
Proof.
  intros (l & c & s & m & e & -> & Hl & Hc & _).
  unfold well_placed, Server.diagnostic_of. cbn.
  repeat split; try reflexivity.
  - exists l, c, m. repeat split; assumption.
  - destruct cap; [discriminate|reflexivity].
  - intros ->. reflexivity.
Qed.

Lemma toDiagnostics_well_placed (cap : bool) (documentUri : jsstring)
  (fs : list Critique.t) :
  (forall f, In f fs -> complete f) ->
  Forall (well_placed cap) (Server.toDiagnostics cap documentUri fs).
Proof.
  intros H. unfold Server.toDiagnostics. rewrite push_all_map. cbn [app].
  apply Forall_forall. intros d Hd. apply in_map_iff in Hd as (f & <- & Hf).
  apply diagnostic_of_well_placed. auto.
Qed.

End CycleFacts.

(** ** Further properties of the code *)

(** X1: with no error text, [new Output] throws exactly when some record
    has three numeric fields and fewer than five fields, and returns an
    object exactly when no record is like that. *)
Theorem X1_constructor_throws_exactly_on_short_records (outputStr : jsstring)
  (errorStr : option jsstring) :
  JS.truthy_string errorStr = false ->
  (Output.constructor outputStr errorStr =
   Throw (TypeError "Cannot read properties of undefined (reading 'trim')")
   <-> existsb short_record (JS.split Output.END_MARK outputStr) = true)
  /\ ((exists o, Output.constructor outputStr errorStr = Normal o)
      <-> existsb short_record (JS.split Output.END_MARK outputStr) = false).
Proof.
  intros Herr. rewrite constructor_closed_form, Herr.
  destruct (existsb short_record _); split; split; intros H;
    try reflexivity; try discriminate; try (destruct H; discriminate).
  eexists. reflexivity.
Qed.

Lemma X1_witness :
  (Output.constructor (js "x[>]1[>]1[>]m[>]e[[END]]1[>]2[>]3[>]four") None =
   Throw (TypeError "Cannot read properties of undefined (reading 'trim')")
   <-> existsb short_record
         (JS.split Output.END_MARK
            (js "x[>]1[>]1[>]m[>]e[[END]]1[>]2[>]3[>]four")) = true)
  /\ ((exists o,
         Output.constructor (js "x[>]1[>]1[>]m[>]e[[END]]1[>]2[>]3[>]four") None
         = Normal o)
      <-> existsb short_record
            (JS.split Output.END_MARK
               (js "x[>]1[>]1[>]m[>]e[[END]]1[>]2[>]3[>]four")) = false).
Proof.
  apply X1_constructor_throws_exactly_on_short_records. reflexivity.
Defined.

(** X2: every critique in the [critiques] of an object that [new Output]
    returns is complete: its five fields are set, it has no error, line
    and column are not negative, summary and explanation are trimmed, and
    its severity is at least 1. *)
Theorem X2_findings_are_complete (outputStr : jsstring)
  (errorStr : option jsstring) (o : Output.t) :
  Output.constructor outputStr errorStr = Normal o ->
  forall f, In f (Output.critiques o) ->
    complete f /\ exists s, Critique.severity f = Some s /\ (1 <= s)%Z.
Proof. apply output_findings_complete. Qed.

Lemma X2_witness :
  Forall
    (fun f =>
       complete f /\ exists s, Critique.severity f = Some s /\ (1 <= s)%Z)
    [Critique.mk (Some 0%Z) (Some 0%Z) (Some 4%Z)
       (Some (js "a b")) (Some (js "c")) None].
Proof.
  apply Forall_forall.
  apply (@X2_findings_are_complete
           (js " -3[>]0[>]5[>] a b [>]c [[END]]1[>]1[>]1[>]x[>]y[[END]]") None
           (Output.mk None
              [Critique.mk (Some 0%Z) (Some 0%Z) (Some 4%Z)
                 (Some (js "a b")) (Some (js "c")) None])).
  vm_compute. reflexivity.
Defined.

(** X3: an object that [new Critique] returns is blank (for the empty
    text), or carries the error message and nothing else (when a leading
    field is not numeric), or is complete; it never has an error next to a
    position. *)
Theorem X3_critique_is_blank_error_or_complete (text : jsstring)
  (c : Critique.t) :
  Critique.constructor text = Normal c ->
  (text = [] /\ c = Critique.blank)
  \/ (text <> [] /\ numeric_fields text = false
      /\ c = Critique.mk None None None None None
               (Some (Critique.error_prefix ++ text)))
  \/ (numeric_fields text = true /\ complete c).
Proof.
  intros H.
  destruct (constructor_cases text)
    as [[Ht E]|[(Ht & Hn & E)|[(_ & _ & _ & E)|(_ & Hn & _ & c' & E & Hc)]]];
    rewrite E in H; try discriminate; injection H as <-; auto.
Qed.

Lemma X3_witness :
  (js "x[>]1" = [] /\ Critique.mk None None None None None
                        (Some (Critique.error_prefix ++ js "x[>]1"))
                      = Critique.blank)
  \/ (js "x[>]1" <> [] /\ numeric_fields (js "x[>]1") = false
      /\ Critique.mk None None None None None
           (Some (Critique.error_prefix ++ js "x[>]1")) =
         Critique.mk None None None None None
           (Some (Critique.error_prefix ++ js "x[>]1")))
  \/ (numeric_fields (js "x[>]1") = true
      /\ complete (Critique.mk None None None None None
                     (Some (Critique.error_prefix ++ js "x[>]1")))).
Proof.
  apply X3_critique_is_blank_error_or_complete. vm_compute. reflexivity.
Defined.

(** X4: a text that is not empty and has fewer than three fields gives the
    format error: [new Critique] does not throw on it, and the record
    fails validation. *)
Theorem X4_fewer_than_three_fields_is_a_format_error (text : jsstring) :
  JS.isEmpty text = false ->
  (length (JS.split Critique.FIELD_SEP text) <? 3)%nat = true ->
  Critique.constructor text =
  Normal (Critique.mk None None None None None
            (Some (Critique.error_prefix ++ text)))
  /\ forall r, Output.clean r = text -> fails_validation r = true.
Proof.
  intros Hne Hlen. apply Nat.ltb_lt in Hlen.
  assert (Ht : text <> []) by (intros ->; discriminate).
  assert (Hnum : numeric_fields text = false).
  { unfold numeric_fields.
    destruct (JS.split Critique.FIELD_SEP text) as [|l [|c [|s tl]]];
      cbn [nth_error]; rewrite ?isNumber_undefined, ?andb_false_r;
      try reflexivity.
    simpl in Hlen. lia. }
  split; [now apply constructor_invalid|].
  intros r Hr. unfold fails_validation, blank_record. rewrite Hr, Hnum.
  now destruct text.
Qed.

Lemma X4_witness :
  Critique.constructor (js "12[>]3") =
  Normal (Critique.mk None None None None None
            (Some (Critique.error_prefix ++ js "12[>]3")))
  /\ forall r, Output.clean r = js "12[>]3" -> fails_validation r = true.
Proof.
  apply X4_fewer_than_three_fields_is_a_format_error; reflexivity.
Defined.

(** X5: a field made of decimal digits, with any white space around it,
    passes [isNumber] exactly when its value is below 2^1024 - 2^970, where
    a double overflows; when the value is a safe integer, [parseInt] of the
    trimmed field is this value. *)
Theorem X5_decimal_field_is_numeric_below_overflow (a ds b : jsstring) :
  forallb JS.isWhiteSpace a = true ->
  forallb JS.isWhiteSpace b = true ->
  JS.isEmpty ds = false ->
  forallb JS.isDigit ds = true ->
  Critique.isNumber (Some (a ++ ds ++ b)) =
  (JS.digitsValue 10 ds <? JS.overflowBound)%Z
  /\ (isSafeInteger (JS.digitsValue 10 ds) = true ->
      JS.parseInt (Some (JS.trim (a ++ ds ++ b))) =
      Some (JS.digitsValue 10 ds)).
Proof.
  intros Ha Hb Hne Hds.
  assert (Hd : ds <> []) by (intros ->; discriminate).
  destruct (isNumber_digits Hd Hds) as [Hn Hp].
  rewrite isNumber_ws_app, isNumber_app_ws by assumption.
  rewrite trim_ws_app, trim_app_ws, parseInt_trim by assumption.
  now split.
Qed.

Lemma X5_witness :
  Critique.isNumber (Some (js " " ++ js "042" ++ [10%N])) =
  (JS.digitsValue 10 (js "042") <? JS.overflowBound)%Z
  /\ (isSafeInteger (JS.digitsValue 10 (js "042")) = true ->
      JS.parseInt (Some (JS.trim (js " " ++ js "042" ++ [10%N]))) =
      Some (JS.digitsValue 10 (js "042"))).
Proof.
  apply X5_decimal_field_is_numeric_below_overflow; reflexivity.
Defined.

(** X6: five fields joined by the field separator are read back: when
    line, column and severity are decimal fields (one to fifteen digits,
    so that their values are safe integers) and
    no part of summary or explanation starts the separator, the critique
    has the three values, each less one and not below zero, and the two
    texts trimmed. *)
Theorem X6_joined_fields_are_read_back (l c s m e : jsstring) :
  decimal_field l = true ->
  decimal_field c = true ->
  decimal_field s = true ->
  free_of Critique.FIELD_SEP m = true ->
  free_of Critique.FIELD_SEP e = true ->
  Critique.constructor (JSArray.join Critique.FIELD_SEP [l; c; s; m; e]) =
  Normal (Critique.mk
            (Some (Z.max (JS.digitsValue 10 l - 1) 0))
            (Some (Z.max (JS.digitsValue 10 c - 1) 0))
            (Some (Z.max (JS.digitsValue 10 s - 1) 0))
            (Some (JS.trim m)) (Some (JS.trim e)) None).
Proof.
  intros Hl Hc Hs Hm He.
  destruct (decimal_field_numeric _ Hl) as [Hln Hlp].
  destruct (decimal_field_numeric _ Hc) as [Hcn Hcp].
  destruct (decimal_field_numeric _ Hs) as [Hsn Hsp].
  apply decimal_field_inv in Hl as (Hl0 & Hl & _).
  apply decimal_field_inv in Hc as (_ & Hc & _).
  apply decimal_field_inv in Hs as (_ & Hs & _).
  assert (Hsplit :
            JS.split Critique.FIELD_SEP
              (JSArray.join Critique.FIELD_SEP [l; c; s; m; e]) =
            [l; c; s; m; e]).
  { apply split_join; [discriminate|discriminate|].
    cbn [forallb]. rewrite !digits_free_of_FIELD_SEP by assumption.
    now rewrite Hm, He. }
  rewrite (@constructor_five _ _ _ _ _ _ _ (five_fields_nonempty Hsplit)
             Hsplit Hln Hcn Hsn).
  rewrite !parseInt_trim, Hlp, Hcp, Hsp. now rewrite !zero_based_max.
Qed.

Lemma X6_witness :
  Critique.constructor
    (JSArray.join Critique.FIELD_SEP
       [js "12"; js "0"; js "5"; js " Bad [thing] "; js "Policy::Name"]) =
  Normal (Critique.mk
            (Some (Z.max (JS.digitsValue 10 (js "12") - 1) 0))
            (Some (Z.max (JS.digitsValue 10 (js "0") - 1) 0))
            (Some (Z.max (JS.digitsValue 10 (js "5") - 1) 0))
            (Some (JS.trim (js " Bad [thing] ")))
            (Some (JS.trim (js "Policy::Name"))) None).
Proof.
  apply X6_joined_fields_are_read_back; reflexivity.
Defined.

(** X7: the output that the analyzer prints for well-formed records, each
    followed by the end-of-record marker, is split into these records and
    a last empty one (when no part of a record starts the marker); the
    result has no error and holds the findings of the records in their
    order, at most one for each record. *)
Theorem X7_stream_of_records_is_read_back (rs : list jsstring)
  (errorStr : option jsstring) :
  JS.truthy_string errorStr = false ->
  forallb (free_of Output.END_MARK) rs = true ->
  forallb well_formed rs = true ->
  JS.split Output.END_MARK (stream rs) = rs ++ [[]]
  /\ Output.constructor (stream rs) errorStr =
     Normal (Output.mk None (flat_map findings_of rs))
  /\ (length (flat_map findings_of rs) <= length rs)%nat.
Proof.
  intros Herr Hfree Hwf.
  pose proof (split_stream _ Hfree) as Hsplit.
  destruct (well_formed_stream _ Hwf) as [Hshort Hfail].
  split; [exact Hsplit|]. split; [|apply flat_map_findings_length].
  rewrite constructor_closed_form, Herr, Hsplit, Hshort.
  rewrite last_message_passes by assumption.
  rewrite flat_map_app. cbn [flat_map].
  change (findings_of []) with (@nil Critique.t).
  now rewrite !app_nil_r.
Qed.

Lemma X7_witness :
  JS.split Output.END_MARK
    (stream [js "2[>]5[>]3[>]a[>]b"; js "1[>]1[>]1[>]x[>]y";
             js "4[>]4[>]4[>]c[>]d"]) =
  [js "2[>]5[>]3[>]a[>]b"; js "1[>]1[>]1[>]x[>]y"; js "4[>]4[>]4[>]c[>]d"]
  ++ [[]]
  /\ Output.constructor
       (stream [js "2[>]5[>]3[>]a[>]b"; js "1[>]1[>]1[>]x[>]y";
                js "4[>]4[>]4[>]c[>]d"]) None =
     Normal (Output.mk None
               (flat_map findings_of
                  [js "2[>]5[>]3[>]a[>]b"; js "1[>]1[>]1[>]x[>]y";
                   js "4[>]4[>]4[>]c[>]d"]))
  /\ (length
        (flat_map findings_of
           [js "2[>]5[>]3[>]a[>]b"; js "1[>]1[>]1[>]x[>]y";
            js "4[>]4[>]4[>]c[>]d"])
      <= length [js "2[>]5[>]3[>]a[>]b"; js "1[>]1[>]1[>]x[>]y";
                 js "4[>]4[>]4[>]c[>]d"])%nat.
Proof.
  apply X7_stream_of_records_is_read_back; reflexivity.
Defined.

(** X8: a segment made of escape sequences of the shape
    [escape_sequence], with white space before and after them at most, is
    skipped like a blank segment: the callback leaves the object as it
    is. *)
Theorem X8_escape_only_segment_is_skipped (this : Output.t)
  (a w' b : jsstring) :
  inserted [] w' ->
  forallb JS.isWhiteSpace a = true ->
  forallb JS.isWhiteSpace b = true ->
  Output.callback this (a ++ w' ++ b) = Normal this.
Proof.
  intros Hins Ha Hb. apply callback_blank. now apply escape_only_is_blank.
Qed.

Lemma X8_witness :
  Output.callback (Output.mk None [])
    ([10%N] ++ ([27%N] ++ js "[0m") ++ []) =
  Normal (Output.mk None []).
Proof.
  apply X8_escape_only_segment_is_skipped; try reflexivity.
  apply (@inserted_seq [27; 91; 48; 109]%N [] []); [|constructor].
  apply (@escape_sequence_intro 27 [91]%N [48]%N 109); try reflexivity.
  apply (@some_parameters [48]%N []); reflexivity.
Defined.

(** X10: whatever the analyzer prints, the diagnostics that a cycle sends
    are for the document at hand and each of them is a warning of source
    "perlcritic" on one line, from a line and a column that are not
    negative to the end of the line, with a message; it has related
    information exactly when the client declared the capability. *)
Theorem X10_sent_diagnostics_are_well_placed (cap : bool)
  (run : jsstring -> Pipeline.spawned) (documentUri text uri' : jsstring)
  (diagnostics : list Server.Diagnostic) :
  Pipeline.validateTextDocument cap run documentUri text =
  Normal (Server.sendDiagnostics uri' diagnostics) ->
  uri' = documentUri /\ Forall (well_placed cap) diagnostics.
Proof.
  unfold Pipeline.validateTextDocument.
  destruct (Pipeline.validate run text) as [o|] eqn:Hv; [|discriminate].
  cbn [bind]. unfold Server.validateTextDocument.
  assert (Hc : forall f, In f (Output.critiques o) -> complete f).
  { unfold Pipeline.validate in Hv.
    destruct (JS.isEmpty text); [|destruct (run text)];
      intros f Hf; now apply (output_findings_complete _ _ Hv). }
  destruct (Output.error o) as [[|c msg]|]; intros [= <- <-];
    (split; [reflexivity|now apply toDiagnostics_well_placed]).
Qed.

Lemma X10_witness :
  js "file:///a.pl" = js "file:///a.pl"
  /\ Forall (well_placed true)
       (Server.toDiagnostics true (js "file:///a.pl")
          [Critique.mk (Some 1%Z) (Some 4%Z) (Some 2%Z)
             (Some (js "Bad thing")) (Some (js "Policy::Name")) None]).
Proof.
  apply (@X10_sent_diagnostics_are_well_placed true one_finding
           (js "file:///a.pl") (js "print 1;")).
  vm_compute. reflexivity.
Defined.

(** X11: for settings whose [maxNumberOfProblems] is a safe integer, the
    arguments that [mergeSettings] builds start with [--quiet] and the
    [--verbose] template of the default settings and end with [--top=N];
    no argument after the first two contains one of the words of the
    filter. *)
Theorem X11_merged_arguments_keep_the_format
  (newSettings : Settings.PerlcriticSettings) :
  isSafeInteger (Settings.maxNumberOfProblems newSettings) = true ->
  let merged :=
    Settings.additionalArguments (Settings.mergeSettings (Some newSettings)) in
  firstn 2 merged = Settings.additionalArguments Settings.defaultSettings
  /\ Forall (fun a => Settings.changes_format a = false) (skipn 2 merged)
  /\ last merged [] =
     js "--top="
     ++ JSArray.Number_toString (Settings.maxNumberOfProblems newSettings).
Proof.
  intros _. cbv zeta. rewrite mergeSettings_closed_form.
  cbn [Settings.additionalArguments].
  assert (Hkept : forall l,
             Forall (fun a => Settings.changes_format a = false)
               (filter (fun a => negb (Settings.changes_format a)) l)).
  { intros l. apply Forall_forall. intros a Ha.
    apply filter_In in Ha as [_ Ha]. now apply negb_true_iff. }
  remember (Settings.additionalArguments Settings.defaultSettings) as d eqn:Hd.
  unfold Settings.defaultSettings in Hd. cbn [Settings.additionalArguments] in Hd.
  subst d. cbn [app firstn skipn]. repeat split.
  - rewrite !Forall_app. repeat split.
    + apply Hkept.
    + destruct (_ || _); [constructor|apply Hkept].
    + constructor; [apply top_argument_passes|constructor].
  - rewrite !app_comm_cons, !app_assoc. apply last_last.
Qed.

Lemma X11_witness :
  let merged :=
    Settings.additionalArguments
      (Settings.mergeSettings
         (Some (Settings.mk 20 (js "perlcritic") (js "harsh") true
                  [js "--verbose=8"; js "--profile"; js "/home/doc/rc";
                   js "--theme=core"]))) in
  firstn 2 merged = Settings.additionalArguments Settings.defaultSettings
  /\ Forall (fun a => Settings.changes_format a = false) (skipn 2 merged)
  /\ last merged [] = js "--top=" ++ JSArray.Number_toString 20.
Proof.
  apply (@X11_merged_arguments_keep_the_format
           (Settings.mk 20 (js "perlcritic") (js "harsh") true
              [js "--verbose=8"; js "--profile"; js "/home/doc/rc";
               js "--theme=core"])).
  reflexivity.
Defined.

(** X12: for settings whose severity is one of the five names of the
    configuration and whose [maxNumberOfProblems] is a safe integer, the
    merged arguments are the two default ones, then the arguments of the
    user that contain no word of the filter, in their order, then
    [--severity] unless [--profile] or [-p] is one of the arguments of the
    user, then [--top=N]. *)
Theorem X12_severity_flag_unless_profile
  (newSettings : Settings.PerlcriticSettings) :
  In (Settings.severity newSettings) Settings.severity_names ->
  isSafeInteger (Settings.maxNumberOfProblems newSettings) = true ->
  Settings.additionalArguments (Settings.mergeSettings (Some newSettings)) =
  Settings.additionalArguments Settings.defaultSettings
  ++ filter (fun a => negb (Settings.changes_format a))
       (Settings.additionalArguments newSettings)
  ++ (if existsb (fun a => jsstring_eqb a (js "--profile"))
           (Settings.additionalArguments newSettings)
         || existsb (fun a => jsstring_eqb a (js "-p"))
              (Settings.additionalArguments newSettings)
      then []
      else [js "--" ++ Settings.severity newSettings])
  ++ [js "--top="
      ++ JSArray.Number_toString (Settings.maxNumberOfProblems newSettings)].
Proof.
  intros Hsev _. rewrite mergeSettings_closed_form.
  cbn [Settings.additionalArguments filter].
  now rewrite severity_flag_passes by assumption.
Qed.

Lemma X12_witness :
  Settings.additionalArguments
    (Settings.mergeSettings
       (Some (Settings.mk 20 (js "perlcritic") (js "brutal") false
                [js "--verbose=8"; js "--theme"; js "core"]))) =
  Settings.additionalArguments Settings.defaultSettings
  ++ filter (fun a => negb (Settings.changes_format a))
       [js "--verbose=8"; js "--theme"; js "core"]
  ++ (if existsb (fun a => jsstring_eqb a (js "--profile"))
           [js "--verbose=8"; js "--theme"; js "core"]
         || existsb (fun a => jsstring_eqb a (js "-p"))
              [js "--verbose=8"; js "--theme"; js "core"]
      then []
      else [js "--" ++ js "brutal"])
  ++ [js "--top=" ++ JSArray.Number_toString 20].
Proof.
  apply (@X12_severity_flag_unless_profile
           (Settings.mk 20 (js "perlcritic") (js "brutal") false
              [js "--verbose=8"; js "--theme"; js "core"]));
    [vm_compute; tauto|reflexivity].
Defined.

Section CacheProperties.

Variable accessSync : jsstring -> bool.
Variable which_sync : jsstring -> jsstring + jsstring.

(** X13: after a call of [validateExecutable] for an executable, a second
    call for the same executable gives the same result, leaves the cache
    as it is and shows no message: the file system is asked once. *)
Theorem X13_second_call_is_answered_by_the_cache (cache : list jsstring)
  (executable : jsstring) :
  let first :=
    Executable.validateExecutable accessSync which_sync cache executable in
  Executable.validateExecutable accessSync which_sync (fst (fst first))
    executable =
  (fst (fst first), [], snd first).
Proof.
  cbv zeta. unfold Executable.validateExecutable at 2 3 4.
  destruct (Nat.eqb (length cache) 0
            || negb match nth_error cache 0 with
                    | Some c0 => jsstring_eqb c0 executable
                    | None => false
                    end) eqn:Hmiss.
  - destruct (which_sync executable); cbn [fst snd nth_error];
      apply validateExecutable_hit.
  - cbn [fst snd]. unfold Executable.validateExecutable. now rewrite Hmiss.
Qed.

(** X14: from an empty cache or a cache of two entries, a call leaves a
    cache of two entries, the executable asked for and the result, and the
    result is defined.  When [which] finds the executable the result is
    the path found and no message is shown; when it fails its error is
    shown, and the result is the executable itself if it has a slash and
    can be run, and the empty string otherwise. *)
Theorem X14_cache_holds_the_last_executable (cache : list jsstring)
  (executable : jsstring) :
  Executable.cache_shape cache ->
  exists shown result,
    Executable.validateExecutable accessSync which_sync cache executable =
    ([executable; result], shown, Some result)
    /\ Executable.cache_shape [executable; result]
    /\ (nth_error cache 0 <> Some executable ->
        match which_sync executable with
        | inl found => result = found /\ shown = []
        | inr error =>
            shown = [error]
            /\ result =
               if includes executable (js "/") && accessSync executable
               then executable else []
        end).
Proof.
  intros [->|(e & r & ->)].
  - unfold Executable.validateExecutable. cbn [length Nat.eqb orb].
    destruct (which_sync executable) as [found|error]; do 2 eexists;
      (split; [reflexivity|]); (split; [right; eauto|]); intros _; auto.
  - unfold Executable.validateExecutable. cbn [length Nat.eqb orb nth_error].
    destruct (jsstring_eqb e executable) eqn:E; cbn [negb].
    + apply jsstring_eqb_eq in E. subst e.
      do 2 eexists. split; [reflexivity|]. split; [right; eauto|].
      intros H. now contradiction H.
    + destruct (which_sync executable) as [found|error]; do 2 eexists;
        (split; [reflexivity|]); (split; [right; eauto|]); intros _; auto.
Qed.

End CacheProperties.

Lemma X14_witness :
  exists shown result,
    Executable.validateExecutable (fun _ => true) (fun _ => inr (js "not found"))
      [js "perlcritic"; js "/usr/bin/perlcritic"] (js "./bin/perlcritic") =
    ([js "./bin/perlcritic"; result], shown, Some result)
    /\ Executable.cache_shape [js "./bin/perlcritic"; result]
    /\ (nth_error [js "perlcritic"; js "/usr/bin/perlcritic"] 0
        <> Some (js "./bin/perlcritic") ->
        match (fun _ : jsstring => @inr jsstring jsstring (js "not found"))
                (js "./bin/perlcritic") with
        | inl found => result = found /\ shown = []
        | inr error =>
            shown = [error]
            /\ result =
               if includes (js "./bin/perlcritic") (js "/")
                  && (fun _ : jsstring => true) (js "./bin/perlcritic")
               then js "./bin/perlcritic" else []
        end).
Proof.
  apply (@X14_cache_holds_the_last_executable (fun _ => true)
           (fun _ => inr (js "not found"))).
  right. eauto.
Defined.
